(** * fedrate: the resilient fetch layer and the SERP recorder

    A shallow embedding of [io_clients.py] (the cache key, [fetch], the
    provenance helper [record_source]) and of [serp_utils.py] (the class
    [SerpRecorder]), with the properties of the design document stated
    and proved over it.

    Python values are modelled as the code uses them: [int] as [Z],
    [str] as [string], a [dict] of search-result fields as a finite map
    from field names to values, the [set] of seen URLs as a [gset], lists
    as lists, files as a finite map from path to text. Calls that leave
    the process (the HTTP request, the random jitter, the clock) are read
    from oracles; the effects of a call (network requests, sleeps, file
    writes, emitted log lines) are threaded through an explicit state. *)

From Stdlib Require Import ZArith QArith Ascii String.
From stdpp Require Import gmap strings list pretty sorting.

#[local] Set Warnings "-clear-no-such-hyp,-register-all".

Local Open Scope string_scope.
Local Open Scope list_scope.
Local Open Scope Z_scope.

(** ** Python values that occur as fields of a search-result item *)

Module Py.

(** A field of an item is a string or [None]; an absent field is an
    absent key of the dict. *)
Inductive pyval : Type :=
| PNone
| PStr (s : string).

(** Truth value of [v] in a boolean context ([bool(v)]). *)
Definition truthy (v : pyval) : bool :=
  match v with
  | PNone => false
  | PStr s => negb (String.eqb s "")
  end.

(** [d.get(k)] *)
Definition dict_get (d : gmap string pyval) (k : string) : pyval :=
  match d !! k with
  | Some v => v
  | None => PNone
  end.

(** [d.get(k, dflt)] *)
Definition dict_get_default (d : gmap string pyval) (k : string) (dflt : pyval) : pyval :=
  match d !! k with
  | Some v => v
  | None => dflt
  end.

(** [v or ""], which is a string whenever [v] is a string or [None]. *)
Definition or_empty (v : pyval) : string :=
  match v with
  | PStr s => if truthy v then s else ""
  | PNone => ""
  end.

(** An instance of [str.strip] for strings of ASCII characters: the
    characters Python counts as white space below code 128. *)
Definition is_space (c : ascii) : bool :=
  let n := N_of_ascii c in
  ((9 <=? n) && (n <=? 13) || (28 <=? n) && (n <=? 32))%N.

Fixpoint lstrip (s : string) : string :=
  match s with
  | EmptyString => EmptyString
  | String c s' => if is_space c then lstrip s' else s
  end.

Fixpoint rstrip (s : string) : string :=
  match s with
  | EmptyString => EmptyString
  | String c s' =>
      match rstrip s' with
      | EmptyString => if is_space c then EmptyString else String c EmptyString
      | r => String c r
      end
  end.

Definition strip_ascii (s : string) : string := rstrip (lstrip s).

End Py.

(** ** serp_utils.py *)

Module SerpUtils.
Import Py.

(** One search result as the providers hand it over: a dict. *)
Abbreviation item := (gmap string pyval).

(** The normalized copy kept in the run-wide aggregate. *)
Record result : Type := mk_result {
  r_title : string;
  r_url : string;
  r_snippet : pyval;
  r_provider : pyval
}.

(** The [extra] dict handed to the provenance recorder. *)
Record extra : Type := mk_extra {
  x_provider : pyval;
  x_source_kind : string;
  x_query : string;
  x_rank_in_query : Z
}.

(** One record of the run's source log. *)
Record source_record : Type := mk_source_record {
  sr_claim : string;
  sr_url : string;
  sr_snippet : pyval;
  sr_extra : extra
}.

(** Modelled from the spec: [record_source_jsonl] is imported from
    [io_clients] by [record_query_results], and [io_clients.py] does
    not define it. The design document gives the contract of the
    recorder: [record(claim, url, snippet, extra_metadata)] appends one
    record to the run's source log and returns nothing. The time stamp
    of a record comes from the wall clock and is left out. *)
Definition record_source_jsonl (claim url : string) (snippet : pyval) (ex : extra)
    (log : list source_record) : list source_record :=
  log ++ [mk_source_record claim url snippet ex].

(** The attributes of a [SerpRecorder] instance. *)
Record SerpRecorder : Type := mk_recorder {
  top_k_per_query : Z;
  run_cap : option Z;
  _seen_urls : gset string;
  _total_recorded : Z;
  _agg_results : list result
}.

(** What a call can change: the recorder and the source log. *)
Definition world : Type := SerpRecorder * list source_record.

(** [SerpRecorder.__init__] *)
Definition init (top_k : Z) (cap : option Z) : SerpRecorder :=
  mk_recorder top_k cap ∅ 0 [].

Definition total_recorded (self : SerpRecorder) : Z := _total_recorded self.
Definition all_results (self : SerpRecorder) : list result := _agg_results self.

Definition _can_record_more (self : SerpRecorder) : bool :=
  match run_cap self with
  | None => true
  | Some cap => _total_recorded self <? cap
  end.

Section Recorder.

(** Python's [str.strip]. *)
Variable strip : string -> string.

(** [(item.get("url") or "").strip()] *)
Definition item_url (it : item) : string :=
  strip (or_empty (dict_get it "url")).

(** The dict appended to [_agg_results] for an accepted item. *)
Definition normalized (it : item) : result :=
  mk_result (or_empty (dict_get it "title"))
            (item_url it)
            (dict_get_default it "snippet" (PStr ""))
            (dict_get_default it "provider" (PStr "unknown")).

(** The record that reaches the source log for an accepted item of
    query [query] with rank [rank]. *)
Definition source_of (query : string) (rank : Z) (it : item) : source_record :=
  mk_source_record ("SERP:" +:+ query) (item_url it)
    (dict_get_default it "snippet" (PStr ""))
    (mk_extra (dict_get_default it "provider" (PStr "unknown")) "SERP" query rank).

(** The [for item in results] loop of [record_query_results], with
    its local variables [taken] and [rank_in_query]; [continue] is
    the recursive call on the rest, [break] returns. *)
Fixpoint scan (results : list item) (query : string) (taken rank_in_query : Z)
    (self : SerpRecorder) (log : list source_record)
    : Z * SerpRecorder * list source_record :=
  match results with
  | [] => (taken, self, log)
  | it :: rest =>
      let url := item_url it in
      if String.eqb url "" then scan rest query taken rank_in_query self log
      else if (top_k_per_query self <=? taken) || negb (_can_record_more self)
      then (taken, self, log)
      else if decide (url ∈ _seen_urls self)
      then scan rest query taken rank_in_query self log
      else
        let rank_in_query := rank_in_query + 1 in
        let provider := dict_get_default it "provider" (PStr "unknown") in
        let snippet := dict_get_default it "snippet" (PStr "") in
        let log := record_source_jsonl ("SERP:" +:+ query) url snippet
                     (mk_extra provider "SERP" query rank_in_query) log in
        let self := mk_recorder (top_k_per_query self) (run_cap self)
                      ({[url]} ∪ _seen_urls self)
                      (_total_recorded self)
                      (_agg_results self ++
                         [mk_result (or_empty (dict_get it "title")) url snippet provider]) in
        let taken := taken + 1 in
        let self := mk_recorder (top_k_per_query self) (run_cap self)
                      (_seen_urls self) (_total_recorded self + 1)
                      (_agg_results self) in
        scan rest query taken rank_in_query self log
  end.

(** [SerpRecorder.record_query_results]: the count returned, and the
    recorder and the source log after the call. *)
Definition record_query_results (results : list item) (query : string) (w : world)
    : Z * world :=
  let '(taken, self, log) := scan results query 0 0 (fst w) (snd w) in
  (taken, (self, log)).

(** A run: the calls of one recorder, one after the other; the counts
    returned, in call order, and the state at the end. *)
Fixpoint run_queries (calls : list (list item * string)) (w : world)
    : list Z * world :=
  match calls with
  | [] => ([], w)
  | (results, query) :: more =>
      let '(n, w1) := record_query_results results query w in
      let '(ns, w2) := run_queries more w1 in
      (n :: ns, w2)
  end.

(** *** What one scan does

    The scan accepts a subsequence [acc] of [results]; every effect
    of the call is a function of that subsequence. *)

Definition accepted_by (self : SerpRecorder) (results acc : list item) : Prop :=
  acc `sublist_of` results ∧
  Forall (λ it, item_url it ≠ "" ∧ item_url it ∉ _seen_urls self) acc ∧
  NoDup (item_url <$> acc).

Definition after_accepting (self : SerpRecorder) (acc : list item) : SerpRecorder :=
  mk_recorder (top_k_per_query self) (run_cap self)
    (_seen_urls self ∪ list_to_set (item_url <$> acc))
    (_total_recorded self + Z.of_nat (length acc))
    (_agg_results self ++ (normalized <$> acc)).

Definition within_limits (self : SerpRecorder) (taken : Z) (acc : list item) : Prop :=
  acc = [] ∨
  (taken + Z.of_nat (length acc) ≤ top_k_per_query self ∧
   ∀ cap, run_cap self = Some cap →
          _total_recorded self + Z.of_nat (length acc) ≤ cap).

(** *** Invariants of a recorder over a run *)

(** The URLs of the aggregate are pairwise different and all seen. *)
Definition urls_tracked (self : SerpRecorder) : Prop :=
  NoDup (r_url <$> _agg_results self) ∧
  ∀ u, u ∈ (r_url <$> _agg_results self) → u ∈ _seen_urls self.

(** The items [record_query_results] would take without any limit: those
    with a URL that is not empty and not seen, each URL at its first
    occurrence, in input order. *)
Fixpoint fresh (seen : gset string) (results : list item) : list item :=
  match results with
  | [] => []
  | it :: rest =>
      let url := item_url it in
      if String.eqb url "" then fresh seen rest
      else if decide (url ∈ seen) then fresh seen rest
      else it :: fresh ({[url]} ∪ seen) rest
  end.

(** How many items the loop can still take when [taken] are taken: what
    is left of the quota and, with a run cap, of the cap. *)
Definition room (self : SerpRecorder) (taken : Z) : nat :=
  Z.to_nat
    match run_cap self with
    | None => top_k_per_query self - taken
    | Some cap => Z.min (top_k_per_query self - taken) (cap - _total_recorded self)
    end.

End Recorder.

(** The counter, the aggregate, the seen set and the source log agree. *)
Definition in_step (w : world) : Prop :=
  _total_recorded w.1 = Z.of_nat (length (_agg_results w.1)) ∧
  _seen_urls w.1 = list_to_set (r_url <$> _agg_results w.1) ∧
  NoDup (r_url <$> _agg_results w.1) ∧
  length w.2 = length (_agg_results w.1) ∧
  Forall (λ r, r_url r ≠ "") (_agg_results w.1).

(** *** [context_block] *)

Definition newline : string := String (ascii_of_nat 10) EmptyString.

(** [str(v)] as an f-string prints it. *)
Definition py_str (v : pyval) : string :=
  match v with
  | PNone => "None"
  | PStr s => s
  end.

(** [l[:stop]] *)
Definition slice_to (A : Type) (stop : Z) (l : list A) : list A :=
  if 0 <=? stop then take (Z.to_nat stop) l
  else take (length l - Z.to_nat (- stop)) l.
Arguments slice_to {A} stop l.

(** [sep.join(parts)] *)
Fixpoint join (sep : string) (parts : list string) : string :=
  match parts with
  | [] => ""
  | [x] => x
  | x :: rest => x +:+ sep +:+ join sep rest
  end.

(** The text of one aggregate entry, [i] counted from 1. An entry of
    [_agg_results] has all four keys, so the defaults of [r.get] for
    [url], [snippet] and [provider] are never used. *)
Definition context_entry (i : nat) (r : result) : string :=
  "[" +:+ pretty (S i) +:+ "] " +:+
  (if String.eqb (r_title r) "" then "(no title)" else r_title r) +:+ newline +:+
  "URL: " +:+ r_url r +:+ newline +:+
  "Snippet: " +:+ py_str (r_snippet r) +:+ newline +:+
  "Provider: " +:+ py_str (r_provider r) +:+ newline.

(** The list [lines] of [context_block]. *)
Definition context_lines (self : SerpRecorder) (max_items : Z) : list string :=
  imap context_entry (slice_to max_items (_agg_results self)).

Definition context_block (self : SerpRecorder) (max_items : Z) : string :=
  match context_lines self max_items with
  | [] => "(no sources)"
  | lines => join newline lines
  end.

End SerpUtils.

(** ** io_clients.py *)

Module IoClients.

(** Values of the [json] module. *)
Inductive json : Type :=
| JNull
| JBool (b : bool)
| JNum (n : Z)
| JFloat (x : Q)
| JStr (s : string)
| JArr (items : list json)
| JObj (fields : list (string * json)).

(** A [dict] with string keys, in insertion order. *)
Abbreviation dict := (list (string * json)).

(** The exceptions that travel through [fetch] and [record_source]. *)
Inductive exn : Type :=
| FileNotFoundError (msg : string)
| JSONDecodeError
| RuntimeError (msg : string)
| HTTPStatusError (status : Z)
| TransportError (what : string)
| AttributeError (msg : string).

(** A call returns a value or raises. *)
Inductive outcome (A : Type) : Type :=
| Returned (a : A)
| Raised (e : exn).
Arguments Returned {A} a.
Arguments Raised {A} e.

(** What is handed to the logger [log]. *)
Inductive log_event : Type :=
| http_cache_hit (provider key : string) (mode : option string)
| http_call (provider : string) (status ms : Z) (url : string)
| http_retry (provider : string) (attempt : Z) (err : exn)
| source_recorded (url claim : string).

Inductive log_line : Type :=
| Info (ev : log_event)
| Warning (ev : log_event).

(** The arguments of [c.request], with the client's timeout. *)
Record request : Type := mk_request {
  rq_method : string;
  rq_url : string;
  rq_params : option dict;
  rq_json : option dict;
  rq_headers : option dict;
  rq_timeout : Q
}.

(** What the code reads of a response; [elapsed_ms] is the clock
    difference [int((time.time() - t0) * 1000)]. *)
Record response : Type := mk_response {
  status_code : Z;
  content_type : option string;
  text : string;
  elapsed_ms : Z
}.

(** The client either raises (time-out, connection error) or hands
    back a response. *)
Inductive reply : Type :=
| Failed (e : exn)
| Response (r : response).

(** The part of the world a call can change: the files (path to
    text), the number of HTTP requests sent, the arguments of
    [time.sleep] in order, and the lines logged. Reading an existing
    file and writing a file succeed. *)
Record world : Type := mk_world {
  files : gmap string string;
  requests : nat;
  slept : list Q;
  logged : list log_line
}.

Definition log_to (l : log_line) (w : world) : world :=
  mk_world (files w) (requests w) (slept w) (logged w ++ [l]).

Definition write_text (p content : string) (w : world) : world :=
  mk_world (<[p := content]> (files w)) (requests w) (slept w) (logged w).

Definition sleep (seconds : Q) (w : world) : world :=
  mk_world (files w) (requests w) (slept w ++ [seconds]) (logged w).

Definition sent (w : world) : world :=
  mk_world (files w) (S (requests w)) (slept w) (logged w).

(** [p.exists()] *)
Definition exists_ (p : string) (w : world) : bool :=
  match files w !! p with
  | Some _ => true
  | None => false
  end.

(** [dir / name] for a relative [name]. *)
Definition path_join (dir name : string) : string := dir +:+ "/" +:+ name.

(** [needle in hay] on strings. *)
Definition contains (needle hay : string) : bool :=
  match String.index 0 needle hay with
  | Some _ => true
  | None => false
  end.

(** [d or {}] for [d : dict | None]. *)
Definition or_empty_dict (d : option dict) : json :=
  match d with
  | Some (f :: fs) => JObj (f :: fs)
  | Some [] => JObj []
  | None => JObj []
  end.

Definition retryable_statuses : gset Z :=
  {[408; 425; 429; 500; 502; 503; 504]}.

(** httpx's [Response.is_success], on which [raise_for_status] rests. *)
Definition is_success (status : Z) : bool :=
  (200 <=? status) && (status <=? 299).

Definition py_range (lo hi : Z) : list Z :=
  (λ i, lo + Z.of_nat i) <$> seq 0 (Z.to_nat (hi - lo)).

(** The value of the local [delay] after [i] doublings, in seconds. *)
Definition backoff (i : nat) : Q := inject_Z (2 ^ Z.of_nat i).

(** The waits of [m] consecutive retries that start with [delay =
    backoff j] and with draw number [k] of the jitter. *)
Definition sleeps_from (uniform : nat -> Q) (j k m : nat) : list Q :=
  (λ i, (backoff (j + i) + uniform (k + i)%nat)%Q) <$> seq 0 m.

(** Two worlds that differ in their files only. *)
Definition same_but_files (w1 w2 : world) : Prop :=
  requests w1 = requests w2 ∧ slept w1 = slept w2 ∧ logged w1 = logged w2.

(** The dict [record_source] appends to the log. *)
Definition source_entry (now claim url snippet : string) : json :=
  JObj [("ts", JStr now); ("claim", JStr claim);
        ("url", JStr url); ("snippet", JStr snippet)].

Section Library.

(** The library functions the module calls: [json.dumps] (with its
    [sort_keys] and [indent] arguments), [json.loads] ([None] when it
    raises), [hashlib.sha256(..).hexdigest()], [str.upper]; the
    module constants that come from the environment; the HTTP client
    (the reply to a request, given how many requests were sent
    before); the draws of [random.uniform(0, 0.5)], by number. *)
Variable json_dumps : bool -> option nat -> json -> string.
Variable json_loads : string -> option json.
Variable sha256_hexdigest : string -> string.
Variable upper : string -> string.
Variable CACHE_DIR : string.
Variable ART_DIR : string.
Variable RUN_ID : string.
Variable http : request -> nat -> reply.
Variable uniform : nat -> Q.

(** The local [h] of [_cache_key]: the digest of the payload. *)
Definition cache_digest (payload : json) : string :=
  substring 0 16 (sha256_hexdigest (json_dumps true None payload)).

Definition _cache_key (provider : string) (payload : json) : string :=
  path_join CACHE_DIR (provider +:+ "-" +:+ cache_digest payload +:+ ".json").

(** The [payload] dict built by [fetch]. *)
Definition payload_of (url method : string) (params json_body : option dict) : json :=
  JObj [("url", JStr url); ("method", JStr (upper method));
        ("params", or_empty_dict params); ("json", or_empty_dict json_body)].

(** [data = json.loads(key.read_text())], the log line, [return data]:
    the two cache branches of [fetch] differ in the log line only. *)
Definition load_cached (provider key : string) (mode : option string) (w : world)
    : outcome (option json) * world :=
  match files w !! key with
  | Some content =>
      match json_loads content with
      | Some data =>
          (Returned (Some data), log_to (Info (http_cache_hit provider key mode)) w)
      | None => (Raised JSONDecodeError, w)
      end
  | None => (Raised (FileNotFoundError key), w)
  end.

Section Fetch.

Variable provider url method : string.
Variable params json_body headers : option dict.
Variable max_retries : Z.
Variable timeout_s : Q.

(** The body of the [try] of one attempt: the request, and on a
    good status the cache write. *)
Definition try_once (key : string) (w : world) : outcome json * world :=
  let rep := http (mk_request method url params json_body headers timeout_s)
               (requests w) in
  let w := sent w in
  match rep with
  | Failed e => (Raised e, w)
  | Response r =>
      let w := log_to (Info (http_call provider (status_code r) (elapsed_ms r) url)) w in
      if bool_decide (status_code r ∈ retryable_statuses)
      then (Raised (RuntimeError ("retryable_status:" +:+ pretty (status_code r))), w)
      else if negb (is_success (status_code r))
      then (Raised (HTTPStatusError (status_code r)), w)
      else
        let body :=
          if contains "application/json" (default "" (content_type r))
          then json_loads (text r)
          else Some (JStr (text r)) in
        match body with
        | None => (Raised JSONDecodeError, w)
        | Some body =>
            let data :=
              JObj [("meta", JObj [("status", JNum (status_code r));
                                   ("ms", JNum (elapsed_ms r))]);
                    ("body", body)] in
            (Returned data, write_text key (json_dumps false (Some 2%nat) data) w)
        end
  end.

(** The loop [for attempt in range(1, max_retries + 1)] with the
    local [delay]; when the range is used up without a [return] or
    a [raise], the function ends and returns [None]. *)
Fixpoint attempt_loop (key : string) (attempts : list Z) (delay : Q) (w : world)
    : outcome (option json) * world :=
  match attempts with
  | [] => (Returned None, w)
  | attempt :: rest =>
      match try_once key w with
      | (Returned data, w) => (Returned (Some data), w)
      | (Raised e, w) =>
          let w := log_to (Warning (http_retry provider attempt e)) w in
          if attempt =? max_retries then (Raised e, w)
          else
            let w := sleep (delay + uniform (length (slept w)))%Q w in
            attempt_loop key rest (delay * 2)%Q w
      end
  end.

Definition fetch (use_cache cache_only : bool) (w : world)
    : outcome (option json) * world :=
  let payload := payload_of url method params json_body in
  let key := _cache_key provider payload in
  if cache_only then
    if exists_ key w
    then load_cached provider key (Some "cache_only") w
    else (Raised (FileNotFoundError
                    ("cache_only: no cache for " +:+ provider +:+ " " +:+ url)), w)
  else if use_cache && exists_ key w
  then load_cached provider key None w
  else attempt_loop key (py_range 1 (max_retries + 1)) 1%Q w.

(** An attempt that counts as failed in a retry scenario: the
    client raised, or the status is a retryable one. *)
Definition attempt_fails (i : nat) : Prop :=
  (∃ e, http (mk_request method url params json_body headers timeout_s) i = Failed e) ∨
  (∃ r, http (mk_request method url params json_body headers timeout_s) i = Response r ∧
        status_code r ∈ retryable_statuses).

End Fetch.

(** [record_source]; [now] is the time stamp the clock gives. *)
Definition record_source (now claim url snippet store_as : string) (w : world)
    : outcome unit * world :=
  let p := path_join ART_DIR (RUN_ID +:+ "." +:+ store_as) in
  let items :=
    if exists_ p w then
      match files w !! p with
      | Some content =>
          match json_loads content with
          | Some v => v
          | None => JArr []
          end
      | None => JArr []
      end
    else JArr [] in
  match items with
  | JArr records =>
      let items := JArr (records ++ [source_entry now claim url snippet]) in
      let w := write_text p (json_dumps false (Some 2%nat) items) w in
      (Returned (), log_to (Info (source_recorded url (substring 0 80 claim))) w)
  | _ => (Raised (AttributeError "append"), w)
  end.

(** The dict appended for the tuple [(now, claim, url, snippet)]. *)
Definition entry_of (e : string * string * string * string) : json :=
  let '(now, claim, url, snippet) := e in source_entry now claim url snippet.

(** [record_source] called once per entry [(now, claim, url, snippet)],
    in order, as long as no call raises; the outcome of the last call
    made and the world after it. *)
Fixpoint record_sources (entries : list (string * string * string * string))
    (store_as : string) (w : world) : outcome unit * world :=
  match entries with
  | [] => (Returned (), w)
  | (now, claim, url, snippet) :: more =>
      match record_source now claim url snippet store_as w with
      | (Returned _, w) => record_sources more store_as w
      | (Raised e, w) => (Raised e, w)
      end
  end.

(** The line [save_llm_call] hands to the logger. *)
Inductive llm_log : Type :=
| llm_saved (role path : string).

(** The [record] dict of [save_llm_call]. *)
Definition llm_record (ts run_id role provider model : string) (params : dict)
    (messages : list json) (response : json) : json :=
  JObj [("ts", JStr ts); ("run_id", JStr run_id); ("role", JStr role);
        ("provider", JStr provider); ("model", JStr model); ("params", JObj params);
        ("messages", JArr messages); ("response", response)].

(** [save_llm_call]; [ts] is the time stamp of the clock and [secs] is
    [int(time.time())]. The path returned, the files after the write, and
    the line logged. *)
Definition save_llm_call (ts : string) (secs : Z)
    (run_id role provider model : string) (messages : list json) (response : json)
    (params : dict) (fs : gmap string string)
    : string * gmap string string * llm_log :=
  let record := llm_record ts run_id role provider model params messages response in
  let p := path_join ART_DIR
             (RUN_ID +:+ "." +:+ role +:+ "." +:+ pretty secs +:+ ".llm.json") in
  let fs := <[p := json_dumps false (Some 2%nat) record]> fs in
  (p, fs, llm_saved role p).

End Library.

End IoClients.

(** ** run_files.py *)

Module RunFilesPy.
Import IoClients.

(** The attributes of a [RunFiles] instance; [art_dir] is a path. *)
Record RunFiles : Type := mk_run_files {
  run_id : string;
  art_dir : string
}.

Definition manifest (self : RunFiles) : string :=
  path_join (art_dir self) (run_id self +:+ ".manifest.json").

Definition sources_final (self : RunFiles) : string :=
  path_join (art_dir self) (run_id self +:+ ".sources.final.jsonl").

Definition sources_raw (self : RunFiles) : string :=
  path_join (art_dir self) (run_id self +:+ ".sources.raw.json").

(** [secs] is [int(time.time())], read when [timestamp] is [None]. *)
Definition macro_analyst_llm (secs : Z) (self : RunFiles) (timestamp : option Z) : string :=
  let timestamp := match timestamp with None => secs | Some t => t end in
  path_join (art_dir self)
    (run_id self +:+ ".MacroAnalyst." +:+ pretty timestamp +:+ ".llm.json").

Definition macro_notes (self : RunFiles) : string :=
  path_join (art_dir self) (run_id self +:+ ".macro.notes.md").

Definition factcheck (self : RunFiles) : string :=
  path_join (art_dir self) (run_id self +:+ ".factcheck.json").

Definition executive_writer_llm (secs : Z) (self : RunFiles) (timestamp : option Z) : string :=
  let timestamp := match timestamp with None => secs | Some t => t end in
  path_join (art_dir self)
    (run_id self +:+ ".ExecutiveWriter." +:+ pretty timestamp +:+ ".llm.json").

Definition brief (self : RunFiles) : string :=
  path_join (art_dir self) (run_id self +:+ ".brief.md").

Definition debug (self : RunFiles) : string :=
  path_join (art_dir self) (run_id self +:+ ".debug.json").

End RunFilesPy.

(** ** run_logging.py *)

Module RunLogging.

(** The truth value of a [str | None]. *)
Definition set_and_not_empty (o : option string) : bool :=
  match o with
  | Some s => negb (String.eqb s "")
  | None => false
  end.

(** [get_today]; [env] is [os.getenv("FEDRATE_TODAY")] and [now] is the
    string [_now_iso()] gives. *)
Definition get_today (env : option string) (now : string) (default_iso : option string)
    : string :=
  if set_and_not_empty env then default "" env
  else if set_and_not_empty default_iso then default "" default_iso
  else substring 0 10 now.

End RunLogging.

(** ** agent_tools.py *)

Module AgentTools.
Import IoClients SerpUtils.

Definition ALLOWED_HOSTS : gset string :=
  {[ "www.federalreserve.gov"; "www.cmegroup.com"; "www.wsj.com";
     "www.bloomberg.com"; "www.ft.com"; "fred.stlouisfed.org";
     "www.bls.gov"; "www.bea.gov" ]}.

(** [sorted(ALLOWED_HOSTS)] *)
Definition sorted_hosts : list string := merge_sort String.le (elements ALLOWED_HOSTS).

(** [str(l)] for a list of strings without quote characters. *)
Definition str_of_list (l : list string) : string :=
  "[" +:+ join ", " ((λ s, "'" +:+ s +:+ "'") <$> l) +:+ "]".

(** [Response.raise_for_status] of [requests] raises for 400..599. *)
Definition is_error (status : Z) : bool := (400 <=? status) && (status <? 600).

Section Tools.

(** [urlparse(url).netloc], and what [requests.get(url, ...)] does. *)
Variable netloc : string -> string.
Variable requests_get : string -> reply.

(** [fetch_url]; the state is the list of the URLs requested so far. *)
Definition fetch_url (url : string) (asked : list string) : outcome string * list string :=
  let host := netloc url in
  if negb (String.eqb host "") && negb (bool_decide (host ∈ ALLOWED_HOSTS))
  then (Returned ("Blocked host: " +:+ host +:+ ". Allowed: " +:+ str_of_list sorted_hosts),
        asked)
  else
    let asked := asked ++ [url] in
    match requests_get url with
    | Failed e => (Raised e, asked)
    | Response r =>
        if is_error (status_code r) then (Raised (HTTPStatusError (status_code r)), asked)
        else (Returned (substring 0 (Z.to_nat 20000) (text r)), asked)
    end.

End Tools.

End AgentTools.

(** ** manual_agent_demo.py: [search_with_fallback] *)

Module ManualAgentDemo.
Import IoClients.

(** What the [except Exception] of the provider loop can catch: what
    [fetch] raised, the [AttributeError] of a value without the method
    called, the [TypeError] of iterating a value that is not iterable. *)
Inductive failure : Type :=
| FetchFailed (e : exn)
| NoAttribute (name : string)
| NotIterable.

Inductive tried (A : Type) : Type :=
| Done (a : A)
| Failure (f : failure).
Arguments Done {A} a.
Arguments Failure {A} f.

(** One entry of the result list. *)
Record hit : Type := mk_hit {
  h_title : json;
  h_url : json;
  h_snippet : string;
  h_provider : string
}.

(** The lines of [search_with_fallback] for the logger; they are kept in
    a list of their own, beside the lines [fetch] logs. *)
Inductive search_line : Type :=
| search_ok (provider q : string)
| search_fail (provider q : string) (err : failure).

(** [bool(v)] *)
Definition truthy (v : json) : bool :=
  match v with
  | JNull => false
  | JBool b => b
  | JNum n => negb (n =? 0)
  | JFloat x => negb (Qeq_bool x 0)
  | JStr s => negb (String.eqb s "")
  | JArr items => match items with [] => false | _ => true end
  | JObj fields => match fields with [] => false | _ => true end
  end.

(** The value of key [k] in a dict (a dict has each key once). *)
Fixpoint lookup_key (fields : dict) (k : string) : option json :=
  match fields with
  | [] => None
  | (k', v) :: rest => if String.eqb k' k then Some v else lookup_key rest k
  end.

(** [v.get(k, dflt)]: only a dict has [get]. *)
Definition get (v : json) (k : string) (dflt : json) : tried json :=
  match v with
  | JObj fields =>
      Done match lookup_key fields k with
           | Some x => x
           | None => dflt
           end
  | _ => Failure (NoAttribute "get")
  end.

(** [isinstance(v, dict)] *)
Definition is_dict (v : json) : bool :=
  match v with
  | JObj _ => true
  | _ => false
  end.

(** [v or ""] *)
Definition or_empty (v : json) : json := if truthy v then v else JStr "".

Fixpoint chars (s : string) : list json :=
  match s with
  | EmptyString => []
  | String c s' => JStr (String c EmptyString) :: chars s'
  end.

(** What [for it in v] runs through: the items of a list, the keys of a
    dict, the characters of a string. *)
Definition iterate (v : json) : tried (list json) :=
  match v with
  | JArr items => Done items
  | JObj fields => Done ((λ kv, JStr kv.1) <$> fields)
  | JStr s => Done (chars s)
  | _ => Failure NotIterable
  end.

Definition providers : list (string * string) :=
  [("brave", "https://api.search.brave.com/res/v1/web/search");
   ("ddg", "https://html.duckduckgo.com/html")].

(** The one entry built when the provider is not brave or its body is
    not a dict. *)
Definition stub (url query : string) : hit :=
  mk_hit (JStr (query +:+ " (stub)")) (JStr (url +:+ "?q=" +:+ query))
    "Search stub" "ddg".

Section Search.

(** [s.replace(old, new)], the value of [os.getenv("BRAVE_API_KEY", "")],
    and what [fetch] takes from the libraries. *)
Variable replace : string -> string -> string -> string.
Variable BRAVE_API_KEY : string.
Variable json_dumps : bool -> option nat -> json -> string.
Variable json_loads : string -> option json.
Variable sha256_hexdigest : string -> string.
Variable upper : string -> string.
Variable CACHE_DIR : string.
Variable http : request -> nat -> reply.
Variable uniform : nat -> Q.

(** The dict built for one item [it] of the brave results. *)
Definition brave_hit (it : json) : tried hit :=
  match get it "title" JNull with
  | Failure f => Failure f
  | Done t =>
      match get it "url" JNull with
      | Failure f => Failure f
      | Done u =>
          match get it "description" JNull with
          | Failure f => Failure f
          | Done d =>
              match or_empty d with
              | JStr s =>
                  Done (mk_hit (or_empty t) (or_empty u)
                          (replace (replace s "<strong>" "") "</strong>" "") "brave")
              | _ => Failure (NoAttribute "replace")
              end
          end
      end
  end.

(** The list comprehension over the brave results. *)
Fixpoint brave_hits (items : list json) : tried (list hit) :=
  match items with
  | [] => Done []
  | it :: rest =>
      match brave_hit it with
      | Failure f => Failure f
      | Done h =>
          match brave_hits rest with
          | Failure f => Failure f
          | Done hs => Done (h :: hs)
          end
      end
  end.

(** From [body = res.get("body")] to the value of [results]. *)
Definition results_of (provider url query : string) (res : option json) : tried (list hit) :=
  match res with
  | None => Failure (NoAttribute "get")
  | Some res =>
      match get res "body" JNull with
      | Failure f => Failure f
      | Done body =>
          if String.eqb provider "brave" && is_dict body then
            match get body "web" (JObj []) with
            | Failure f => Failure f
            | Done web =>
                match get web "results" (JArr []) with
                | Failure f => Failure f
                | Done rs =>
                    match iterate rs with
                    | Failure f => Failure f
                    | Done items => brave_hits items
                    end
                end
            end
          else Done [stub url query]
      end
  end.

Definition headers_of (provider : string) : dict :=
  if String.eqb provider "brave"
  then [("User-Agent", JStr "fedrate/1.0"); ("Accept", JStr "application/json");
        ("X-Subscription-Token", JStr BRAVE_API_KEY)]
  else [("User-Agent", JStr "Mozilla/5.0")].

Definition params_of (provider query : string) : dict :=
  if String.eqb provider "brave"
  then [("q", JStr query); ("count", JNum 5)]
  else [("q", JStr query)].

(** The [fetch] call of the loop body, with the defaults of [fetch] for
    the arguments it leaves out. *)
Definition fetch_for (provider url query : string) (cache_only : bool) (w : world)
    : outcome (option json) * world :=
  fetch json_dumps json_loads sha256_hexdigest upper CACHE_DIR http uniform
    provider url "GET" (Some (params_of provider query)) None
    (Some (headers_of provider)) 4 30%Q true cache_only w.

(** The loop [for provider, url in providers]. *)
Fixpoint search_loop (todo : list (string * string)) (query : string) (cache_only : bool)
    (w : world) (lines : list search_line) : list hit * world * list search_line :=
  match todo with
  | [] => ([], w, lines)
  | (provider, url) :: rest =>
      let '(res, w) := fetch_for provider url query cache_only w in
      let results :=
        match res with
        | Raised e => Failure (FetchFailed e)
        | Returned r => results_of provider url query r
        end in
      match results with
      | Done results => (results, w, lines ++ [search_ok provider query])
      | Failure f => search_loop rest query cache_only w (lines ++ [search_fail provider query f])
      end
  end.

(** [search_with_fallback(query, cfg)], with [cache_only] for
    [cfg.cache_only]. *)
Definition search_with_fallback (query : string) (cache_only : bool) (w : world)
    : list hit * world * list search_line :=
  search_loop providers query cache_only w [].

End Search.

End ManualAgentDemo.

(** ** Concrete inputs

    Stand-ins for the library functions and small worlds, on which the
    embedding is run. *)

Module Demo.
Import Py SerpUtils IoClients.

(** A search hit with the given URL. *)
Definition hit (u : string) : item :=
  {[ "title" := PStr ("about " +:+ u); "url" := PStr u; "provider" := PStr "brave" ]}.

Definition quote : string := String (ascii_of_nat 34) EmptyString.

(** A plain printer for JSON values, used for every [json.dumps]. *)
Fixpoint dumps_plain (v : json) : string :=
  match v with
  | JNull => "null"
  | JBool b => if b then "true" else "false"
  | JNum n => pretty n
  | JFloat x => pretty (Qnum x) +:+ "/" +:+ pretty (Z.pos (Qden x))
  | JStr s => quote +:+ s +:+ quote
  | JArr items =>
      "[" +:+ (fix go (l : list json) : string :=
                 match l with
                 | [] => ""
                 | x :: l' => dumps_plain x +:+ "," +:+ go l'
                 end) items +:+ "]"
  | JObj fields =>
      "{" +:+ (fix go (l : list (string * json)) : string :=
                 match l with
                 | [] => ""
                 | (k, x) :: l' => quote +:+ k +:+ quote +:+ ":" +:+ dumps_plain x +:+ "," +:+ go l'
                 end) fields +:+ "}"
  end.

Definition dumps (sort_keys : bool) (indent : option nat) (v : json) : string :=
  dumps_plain v.

(** A parser that knows three texts and rejects every other one. *)
Definition loads (s : string) : option json :=
  if String.eqb s "{}" then Some (JObj [])
  else if String.eqb s "[]" then Some (JArr [])
  else if String.eqb s "null" then Some JNull
  else None.

(** A 64-character digest: the text cut or padded to 64 characters. *)
Fixpoint pad (n : nat) (s : string) : string :=
  match n with
  | O => EmptyString
  | S n' =>
      match s with
      | EmptyString => String "0" (pad n' EmptyString)
      | String c s' => String c (pad n' s')
      end
  end.

Definition digest (s : string) : string := pad 64 s.

Definition upper_ascii_char (c : ascii) : ascii :=
  let n := N_of_ascii c in
  if ((97 <=? n) && (n <=? 122))%N then ascii_of_N (n - 32) else c.

Fixpoint upper_ascii (s : string) : string :=
  match s with
  | EmptyString => EmptyString
  | String c s' => String (upper_ascii_char c) (upper_ascii s')
  end.

(** A server that answers every request with the same status. *)
Definition always (status : Z) : request → nat → reply :=
  λ _ _, Response (mk_response status (Some "text/plain") "sorry" 5).

(** A server that is busy twice and then answers. *)
Definition twice_busy : request → nat → reply :=
  λ _ n, if (n <? 2)%nat
         then Response (mk_response 503 (Some "text/plain") "busy" 5)
         else Response (mk_response 200 (Some "application/json") "{}" 7).

(** Every jitter draw is a quarter of a second. *)
Definition quarter : nat → Q := λ _, 1 # 4.

Definition empty_world : world := mk_world ∅ 0 [] [].

(** The cache file of [GET https://api.test/q] for provider [brave]. *)
Definition the_key : string :=
  _cache_key dumps digest "cache" "brave"
    (payload_of upper_ascii "https://api.test/q" "GET" None None).

Definition world_with (path content : string) : world :=
  mk_world {[ path := content ]} 0 [] [].

(** [fetch("brave", "https://api.test/q", "GET", max_retries=...,
    use_cache=..., cache_only=...)] against the server [http]. *)
Definition get (http : request → nat → reply) (max_retries : Z)
    (use_cache cache_only : bool) (w : world) : outcome (option json) * world :=
  fetch dumps loads digest upper_ascii "cache" http quarter
    "brave" "https://api.test/q" "GET" None None None max_retries 30%Q
    use_cache cache_only w.

(** The source log of run [ae30a38d]. *)
Definition the_log : string := path_join "runs" ("ae30a38d" +:+ "." +:+ "sources.json").

Definition record (w : world) : outcome unit * world :=
  record_source dumps loads "runs" "ae30a38d" "2025-07-30T12:00:00Z"
    "Search evidence" "https://fed.test/a" "rates unchanged" "sources.json" w.


(** What [get twice_busy] returns once the server answers. *)
Definition busy_result : json :=
  JObj [("meta", JObj [("status", JNum 200); ("ms", JNum 7)]); ("body", JObj [])].

(** A parser that also reads back the dumps of the values [known]. *)
Definition loads_known (known : list json) (s : string) : option json :=
  match loads s with
  | Some v => Some v
  | None => List.find (λ v, String.eqb (dumps_plain v) s) known
  end.

(** [get], with a parser that reads back [busy_result], against [http]
    and with the given headers. *)
Definition get_known (http : request → nat → reply) (headers : option dict)
    (max_retries : Z) (use_cache cache_only : bool) (w : world)
    : outcome (option json) * world :=
  fetch dumps (loads_known [busy_result]) digest upper_ascii "cache" http quarter
    "brave" "https://api.test/q" "GET" None None headers max_retries 30%Q
    use_cache cache_only w.

(** Two pieces of evidence, as [(now, claim, url, snippet)]. *)
Definition evidence : list (string * string * string * string) :=
  [("2025-07-30T12:00:00Z", "Search evidence", "https://fed.test/a", "rates unchanged");
   ("2025-07-30T12:00:01Z", "Search evidence", "https://fed.test/b", "two dissents")].

(** [record_source] for each piece of [evidence], with a parser that
    reads back the log of the first. *)
Definition record_evidence (w : world) : outcome unit * world :=
  record_sources dumps (loads_known [JArr (entry_of <$> take 1 evidence)])
    "runs" "ae30a38d" evidence "sources.json" w.

End Demo.

(** ** Properties of serp_utils.py *)

Module SerpUtilsFacts.
Import Py SerpUtils Demo.

Section Recorder.

Variable strip : string -> string.

Local Abbreviation item_url := (SerpUtils.item_url strip).
Local Abbreviation normalized := (SerpUtils.normalized strip).
Local Abbreviation source_of := (SerpUtils.source_of strip).
Local Abbreviation scan := (SerpUtils.scan strip).
Local Abbreviation record_query_results := (SerpUtils.record_query_results strip).
Local Abbreviation run_queries := (SerpUtils.run_queries strip).
Local Abbreviation accepted_by := (SerpUtils.accepted_by strip).
Local Abbreviation after_accepting := (SerpUtils.after_accepting strip).

Lemma after_accepting_nil self : after_accepting self [] = self.
Proof.
  destruct self as [k c seen tot agg]. unfold SerpUtils.after_accepting; simpl.
  f_equal.
  - apply (right_id_L ∅ (∪)).
  - lia.
  - apply app_nil_r.
Qed.

Lemma accepted_by_nil self results : accepted_by self results [].
Proof.
  split; [apply sublist_nil_l|]. split; [constructor|]. simpl. constructor.
Qed.

Lemma accepted_by_skip self it results acc :
  accepted_by self results acc → accepted_by self (it :: results) acc.
Proof.
  intros (Hsub & Hall & Hnd). split; [by apply sublist_cons|]. by split.
Qed.

Lemma scan_nothing query taken rank self log :
  (taken, self, log) =
    (taken + Z.of_nat (length (@nil item)),
     after_accepting self [],
     log ++ imap (λ i it, source_of query (rank + 1 + Z.of_nat i) it) []).
Proof.
  simpl. rewrite after_accepting_nil, app_nil_r, Z.add_0_r. reflexivity.
Qed.

Lemma scan_spec results : ∀ query taken rank self log,
  ∃ acc : list item,
    accepted_by self results acc ∧
    within_limits self taken acc ∧
    scan results query taken rank self log =
      (taken + Z.of_nat (length acc),
       after_accepting self acc,
       log ++ imap (λ i it, source_of query (rank + 1 + Z.of_nat i) it) acc).
Proof.
  induction results as [|it rest IH]; intros query taken rank self log.
  - exists []. split; [apply accepted_by_nil|]. split; [by left|].
    apply scan_nothing.
  - simpl.
    destruct (String.eqb (item_url it) "") eqn:Hempty.
    { destruct (IH query taken rank self log) as (acc & Hacc & Hlim & Heq).
      exists acc. split; [by apply accepted_by_skip|]. by split. }
    destruct ((top_k_per_query self <=? taken) || negb (_can_record_more self)) eqn:Hstop.
    { exists []. split; [apply accepted_by_nil|]. split; [by left|].
      apply scan_nothing. }
    destruct (decide (item_url it ∈ _seen_urls self)) as [Hseen|Hnew].
    { destruct (IH query taken rank self log) as (acc & Hacc & Hlim & Heq).
      exists acc. split; [by apply accepted_by_skip|]. by split. }
    match goal with
    | |- context [scan rest ?q ?t ?r ?s ?l] =>
        destruct (IH q t r s l) as (acc & (Hsub & Hall & Hnd) & Hlim & Heq)
    end.
    unfold within_limits in Hlim. simpl in Hall, Hlim.
    apply orb_false_iff in Hstop as [Hk Hcap].
    apply Z.leb_gt in Hk. apply negb_false_iff in Hcap.
    apply String.eqb_neq in Hempty.
    exists (it :: acc). split; [|split].
    + split; [by apply sublist_skip|]. split.
      * constructor; [done|].
        eapply Forall_impl; [exact Hall|]. simpl. intros x [? ?]. split; [done|set_solver].
      * rewrite fmap_cons. constructor; [|done].
        intros Hin. apply list_elem_of_fmap in Hin as (x & Hx & Hxin).
        rewrite Forall_forall in Hall. destruct (Hall x Hxin) as [_ Hnot].
        apply Hnot. rewrite <- Hx. set_solver.
    + right. rewrite length_cons, Nat2Z.inj_succ. split.
      * destruct Hlim as [->|[Hl _]]; simpl; lia.
      * intros cap Hc. unfold _can_record_more in Hcap. rewrite Hc in Hcap.
        apply Z.ltb_lt in Hcap.
        destruct Hlim as [->|[_ Hl]]; simpl; [lia|].
        specialize (Hl cap Hc). lia.
    + rewrite Heq. unfold SerpUtils.after_accepting, record_source_jsonl; simpl.
      rewrite Nat2Z.inj_succ.
      f_equal; [f_equal|].
      * lia.
      * f_equal; [set_solver | lia | by rewrite <- app_assoc].
      * rewrite <- app_assoc. simpl. do 2 f_equal.
        -- unfold SerpUtils.source_of. do 2 f_equal. lia.
        -- apply imap_ext. intros i x _. simpl. f_equal. lia.
Qed.

Lemma record_query_results_spec results query self log :
  ∃ acc : list item,
    accepted_by self results acc ∧
    within_limits self 0 acc ∧
    record_query_results results query (self, log) =
      (Z.of_nat (length acc),
       (after_accepting self acc,
        log ++ imap (λ i it, source_of query (Z.of_nat i + 1) it) acc)).
Proof.
  destruct (scan_spec results query 0 0 self log) as (acc & Hacc & Hlim & Heq).
  exists acc. split; [done|]. split; [done|].
  unfold SerpUtils.record_query_results. simpl. rewrite Heq. simpl.
  do 3 f_equal. apply imap_ext. intros i x _. simpl. f_equal. lia.
Qed.

Lemma urls_tracked_init K cap : urls_tracked (init K cap).
Proof. split; simpl; [constructor|]. intros u Hu. by apply elem_of_nil in Hu. Qed.

Lemma normalized_urls (acc : list item) : r_url <$> (normalized <$> acc) = item_url <$> acc.
Proof. rewrite <- list_fmap_compose. by apply list_fmap_ext. Qed.

Lemma urls_tracked_after self results acc :
  urls_tracked self → accepted_by self results acc →
  urls_tracked (after_accepting self acc).
Proof.
  intros [Hnd Hseen] (_ & Hall & Hnd').
  unfold urls_tracked, SerpUtils.after_accepting; simpl.
  rewrite fmap_app, normalized_urls. split.
  - apply NoDup_app. split; [done|]. split; [|done].
    intros u Hu Hu'. apply Hseen in Hu.
    apply list_elem_of_fmap in Hu' as (x & -> & Hx).
    rewrite Forall_forall in Hall. by destruct (Hall x Hx).
  - intros u [Hu|Hu]%elem_of_app.
    + apply elem_of_union_l. by apply Hseen.
    + apply elem_of_union_r. by apply elem_of_list_to_set.
Qed.

(** The accepted items of a whole run, call by call. *)
Lemma run_queries_spec calls : ∀ self log,
  ∃ accs : list (list item),
    Forall2 (λ acc (call : list item * string), acc `sublist_of` call.1) accs calls ∧
    (run_queries calls (self, log)).1 = (λ acc, Z.of_nat (length acc)) <$> accs ∧
    _agg_results (run_queries calls (self, log)).2.1 =
      _agg_results self ++ (normalized <$> concat accs) ∧
    _total_recorded (run_queries calls (self, log)).2.1 =
      _total_recorded self + Z.of_nat (length (concat accs)) ∧
    top_k_per_query (run_queries calls (self, log)).2.1 = top_k_per_query self ∧
    run_cap (run_queries calls (self, log)).2.1 = run_cap self ∧
    Forall (λ acc, within_limits (init (top_k_per_query self) None) 0 acc) accs ∧
    (∀ cap, run_cap self = Some cap → _total_recorded self ≤ cap →
            _total_recorded (run_queries calls (self, log)).2.1 ≤ cap) ∧
    (urls_tracked self → urls_tracked (run_queries calls (self, log)).2.1).
Proof.
  induction calls as [|[results query] more IH]; intros self log.
  - exists []. simpl. rewrite app_nil_r, Z.add_0_r.
    repeat (split; [done || constructor|]). done.
  - simpl.
    destruct (record_query_results_spec results query self log)
      as (acc & Hacc & Hlim & Heq).
    rewrite Heq.
    destruct (IH (after_accepting self acc)
                (log ++ imap (λ i it, source_of query (Z.of_nat i + 1) it) acc))
      as (accs & Hsubs & Hcounts & Hagg & Htot & Hk & Hc & Hlims & Hcap & Hinv).
    destruct (run_queries more _) as [ns [self' log']] eqn:Hrun.
    simpl in *.
    exists (acc :: accs). split; [|split; [|split; [|split; [|split; [|split; [|split; [|split]]]]]]].
    + constructor; [by destruct Hacc|done].
    + by rewrite Hcounts.
    + rewrite Hagg, <- app_assoc. f_equal. cbn [concat]. symmetry. apply (fmap_app normalized).
    + rewrite Htot. cbn [concat]. rewrite length_app. lia.
    + done.
    + done.
    + constructor; [|done].
      destruct Hlim as [->|[Hl _]]; [by left|right]. split; [done|]. by intros cap [=].
    + intros cap Hsome Hle. apply Hcap; [by rewrite Hsome|].
      destruct Hlim as [->|[_ Hl]]; [simpl; lia|]. by apply Hl.
    + intros Htr. apply Hinv. by eapply urls_tracked_after.
Qed.

(** Once the run cap is reached a scan stops at the first item with
    a URL and accepts nothing. *)
Lemma scan_capped results : ∀ query taken rank self log cap,
  run_cap self = Some cap → cap ≤ _total_recorded self →
  scan results query taken rank self log = (taken, self, log).
Proof.
  induction results as [|it rest IH]; intros query taken rank self log cap Hc Hle;
    [done|].
  simpl. destruct (String.eqb (item_url it) ""); [by eapply IH|].
  unfold _can_record_more. rewrite Hc.
  replace (_total_recorded self <? cap) with false
    by (symmetry; apply Z.ltb_ge; lia).
  by rewrite orb_true_r.
Qed.

(** The path through the loop body that accepts the item. *)
Lemma scan_accept it rest query taken rank self log :
  item_url it ≠ "" →
  taken < top_k_per_query self →
  _can_record_more self = true →
  item_url it ∉ _seen_urls self →
  scan (it :: rest) query taken rank self log =
    scan rest query (taken + 1) (rank + 1)
      (mk_recorder (top_k_per_query self) (run_cap self)
         ({[item_url it]} ∪ _seen_urls self) (_total_recorded self + 1)
         (_agg_results self ++ [normalized it]))
      (log ++ [source_of query (rank + 1) it]).
Proof.
  intros Hurl Hk Hmore Hnew. cbn [SerpUtils.scan].
  apply String.eqb_neq in Hurl. rewrite Hurl, Hmore.
  replace (top_k_per_query self <=? taken) with false
    by (symmetry; apply Z.leb_gt; lia).
  cbn [orb negb]. by rewrite decide_False.
Qed.

Lemma within_limits_count K acc :
  0 ≤ K → within_limits (init K None) 0 acc → 0 ≤ Z.of_nat (length acc) ≤ K.
Proof.
  intros HK [->|[Hl _]]; simpl in *; lia.
Qed.

(** C3. Every call [record_query_results(results, query)] accepts a
    subsequence [acc] of [results]; the item at position [i] of [acc]
    gets rank [i + 1], one record with that rank is appended to the
    source log through [record_source_jsonl], the URLs of [acc] join
    the seen set, the normalized copies join [all_results] in the
    same order, and the call returns the length of [acc], by which
    [total_recorded] grows. *)
Theorem record_query_results_accepts
    (results : list item) (query : string)
    (self : SerpRecorder) (log : list source_record) :
  ∃ acc : list item,
    accepted_by self results acc ∧
    (record_query_results results query (self, log)).1 = Z.of_nat (length acc) ∧
    (record_query_results results query (self, log)).2.2 =
      foldl (λ l (p : nat * item),
               record_source_jsonl ("SERP:" +:+ query) (item_url p.2)
                 (dict_get_default p.2 "snippet" (PStr ""))
                 (mk_extra (dict_get_default p.2 "provider" (PStr "unknown"))
                    "SERP" query (Z.of_nat p.1 + 1)) l)
            log (imap pair acc) ∧
    _seen_urls (record_query_results results query (self, log)).2.1 =
      _seen_urls self ∪ list_to_set (item_url <$> acc) ∧
    all_results (record_query_results results query (self, log)).2.1 =
      all_results self ++
      ((λ it, mk_result (or_empty (dict_get it "title")) (item_url it)
                (dict_get_default it "snippet" (PStr ""))
                (dict_get_default it "provider" (PStr "unknown"))) <$> acc) ∧
    total_recorded (record_query_results results query (self, log)).2.1 =
      total_recorded self + Z.of_nat (length acc).
Proof.
  destruct (record_query_results_spec results query self log)
    as (acc & Hacc & _ & ->).
  exists acc. split; [done|]. split; [done|]. split; [|by repeat split].
  cbn [fst snd]. clear Hacc. revert log.
  assert (Hgen : ∀ k log,
    log ++ imap (λ i it, source_of query (Z.of_nat (k + i) + 1) it) acc =
    foldl (λ l (p : nat * item),
             record_source_jsonl ("SERP:" +:+ query) (item_url p.2)
               (dict_get_default p.2 "snippet" (PStr ""))
               (mk_extra (dict_get_default p.2 "provider" (PStr "unknown"))
                  "SERP" query (Z.of_nat p.1 + 1)) l)
          log (imap (λ i, pair (k + i)%nat) acc)).
  { induction acc as [|it acc IH]; intros k log; simpl; [apply app_nil_r|].
    unfold record_source_jsonl at 2. cbn [fst snd].
    rewrite <- (imap_ext (λ i, pair (S k + i)%nat) _ acc)
      by (intros; simpl; f_equal; lia).
    rewrite <- IH. rewrite <- app_assoc. simpl. unfold SerpUtils.source_of.
    do 2 f_equal.
    apply imap_ext. intros i x _. simpl. do 3 f_equal. lia. }
  intros log. exact (Hgen 0%nat log).
Qed.

(** C7. Over any sequence of calls on a fresh recorder with quota
    [K] and run cap [cap], the cumulative total (the sum of the counts
    returned) never exceeds [cap] and every call returns at most [K];
    with cap 3 and quota 3, a first query with three different URLs and
    any second query yield counts 3 and 0: three accepted in total. *)
Theorem run_cap_and_quota_respected
    (K cap : Z) (calls : list (list item * string))
    (a b c : item) (second : list item) (q1 q2 : string)
    (HK : 0 ≤ K) (Hcap : 0 ≤ cap)
    (Hurls : item_url a ≠ "" ∧ item_url b ≠ "" ∧ item_url c ≠ "")
    (Hdiff : item_url a ≠ item_url b ∧ item_url a ≠ item_url c ∧
             item_url b ≠ item_url c) :
  (total_recorded (run_queries calls (init K (Some cap), [])).2.1 ≤ cap ∧
   total_recorded (run_queries calls (init K (Some cap), [])).2.1 =
     foldr Z.add 0 (run_queries calls (init K (Some cap), [])).1 ∧
   Forall (λ n, 0 ≤ n ≤ K) (run_queries calls (init K (Some cap), [])).1) ∧
  ((run_queries [([a; b; c], q1); (second, q2)] (init 3 (Some 3), [])).1 = [3; 0] ∧
   total_recorded
     (run_queries [([a; b; c], q1); (second, q2)] (init 3 (Some 3), [])).2.1 = 3 ∧
   all_results
     (run_queries [([a; b; c], q1); (second, q2)] (init 3 (Some 3), [])).2.1 =
     normalized <$> [a; b; c]).
Proof.
  split.
  - destruct (run_queries_spec calls (init K (Some cap)) [])
      as (accs & _ & Hcounts & _ & Htot & _ & _ & Hlims & Hle & _).
    split; [by apply Hle|]. unfold total_recorded. rewrite Htot, Hcounts.
    simpl in Hlims |- *. clear -HK Hlims. split.
    + induction accs as [|acc accs IH]; [done|].
      apply Forall_cons in Hlims as [_ Hl]. cbn [concat fmap list_fmap foldr].
      rewrite length_app, Nat2Z.inj_add, <- IH by done. reflexivity.
    + induction Hlims as [|acc accs Hl _ IH]; constructor; [|done].
      by apply within_limits_count.
  - destruct Hurls as (Ha & Hb & Hc). destruct Hdiff as (Hab & Hac & Hbc).
    unfold SerpUtils.run_queries, SerpUtils.record_query_results.
    rewrite scan_accept; [|done|simpl; lia|done|set_solver].
    rewrite scan_accept; [|done|simpl; lia|done|simpl; set_solver].
    rewrite scan_accept; [|done|simpl; lia|done|simpl; set_solver].
    cbn [SerpUtils.scan fst snd].
    erewrite scan_capped; [|reflexivity|simpl; lia].
    by repeat split.
Qed.

(** C8. After any sequence of calls on a fresh recorder, no two
    entries of [all_results] have the same URL, and [all_results] is
    the concatenation, in call order, of what each call accepted, each
    part in the order of that call's input; a further call only
    appends to it. *)
Theorem all_results_unique_in_acceptance_order
    (K : Z) (cap : option Z) (calls : list (list item * string)) :
  NoDup (r_url <$> all_results (run_queries calls (init K cap, [])).2.1) ∧
  (∃ accs : list (list item),
     Forall2 (λ acc (call : list item * string), acc `sublist_of` call.1)
       accs calls ∧
     (run_queries calls (init K cap, [])).1 =
       (λ acc, Z.of_nat (length acc)) <$> accs ∧
     all_results (run_queries calls (init K cap, [])).2.1 =
       normalized <$> concat accs) ∧
  (∀ results query,
     ∃ acc : list item,
       acc `sublist_of` results ∧
       all_results
         (record_query_results results query
            (run_queries calls (init K cap, [])).2).2.1 =
       all_results (run_queries calls (init K cap, [])).2.1 ++ (normalized <$> acc)).
Proof.
  destruct (run_queries_spec calls (init K cap) [])
    as (accs & Hsubs & Hcounts & Hagg & _ & _ & _ & _ & _ & Hinv).
  split; [|split].
  - apply Hinv, urls_tracked_init.
  - exists accs. by repeat split.
  - intros results query.
    destruct (run_queries calls (init K cap, [])) as [ns [self log]].
    cbn [fst snd].
    destruct (record_query_results_spec results query self log)
      as (acc & (Hsub & _) & _ & ->).
    exists acc. by split.
Qed.

End Recorder.

(** *** Concrete runs *)

(** Query A returns [u1, u2, u1, u3] with quota 2 and cap 10: [u1]
    and [u2] are accepted with ranks 1 and 2. *)
Example end_to_end_scenario :
  let r := record_query_results strip_ascii
             [hit "u1"; hit " u2 "; hit "u1"; hit "u3"] "A" (init 2 (Some 10), []) in
  r.1 = 2 ∧
  total_recorded r.2.1 = 2 ∧
  r_url <$> all_results r.2.1 = ["u1"; "u2"] ∧
  (λ s, (sr_url s, x_rank_in_query (sr_extra s))) <$> r.2.2 = [("u1", 1); ("u2", 2)].
Proof. vm_compute. by repeat split. Qed.

Lemma run_cap_and_quota_respected_witness :
  let calls := [([hit "u1"; hit "u2"; hit "u1"; hit "u3"], "A");
                ([hit "u3"; hit "u4"; hit "u5"], "B")] in
  (0 ≤ 2 ∧ 0 ≤ 3) ∧
  (total_recorded (run_queries strip_ascii calls (init 2 (Some 3), [])).2.1 ≤ 3 ∧
   total_recorded (run_queries strip_ascii calls (init 2 (Some 3), [])).2.1 =
     foldr Z.add 0 (run_queries strip_ascii calls (init 2 (Some 3), [])).1 ∧
   Forall (λ n, 0 ≤ n ≤ 2) (run_queries strip_ascii calls (init 2 (Some 3), [])).1) ∧
  ((run_queries strip_ascii
      [([hit "a"; hit "b"; hit "c"], "A"); ([hit "d"; hit "e"; hit "f"], "B")]
      (init 3 (Some 3), [])).1 = [3; 0] ∧
   total_recorded
     (run_queries strip_ascii
        [([hit "a"; hit "b"; hit "c"], "A"); ([hit "d"; hit "e"; hit "f"], "B")]
        (init 3 (Some 3), [])).2.1 = 3 ∧
   all_results
     (run_queries strip_ascii
        [([hit "a"; hit "b"; hit "c"], "A"); ([hit "d"; hit "e"; hit "f"], "B")]
        (init 3 (Some 3), [])).2.1 =
     normalized strip_ascii <$> [hit "a"; hit "b"; hit "c"]).
Proof.
  intros calls. split; [lia|].
  apply (run_cap_and_quota_respected strip_ascii 2 3 calls
           (hit "a") (hit "b") (hit "c") [hit "d"; hit "e"; hit "f"] "A" "B");
    [lia | lia | vm_compute; by repeat split | vm_compute; by repeat split].
Defined.

End SerpUtilsFacts.

(** ** Properties of io_clients.py *)

Module IoClientsFacts.
Import IoClients.

Section Library.

Variable json_dumps : bool -> option nat -> json -> string.
Variable json_loads : string -> option json.
Variable sha256_hexdigest : string -> string.
Variable upper : string -> string.
Variable CACHE_DIR : string.
Variable ART_DIR : string.
Variable RUN_ID : string.
Variable http : request -> nat -> reply.
Variable uniform : nat -> Q.

Local Abbreviation cache_digest := (IoClients.cache_digest json_dumps sha256_hexdigest).
Local Abbreviation _cache_key :=
  (IoClients._cache_key json_dumps sha256_hexdigest CACHE_DIR).
Local Abbreviation payload_of := (IoClients.payload_of upper).
Local Abbreviation load_cached := (IoClients.load_cached json_loads).
Local Abbreviation try_once := (IoClients.try_once json_dumps json_loads http).
Local Abbreviation attempt_loop :=
  (IoClients.attempt_loop json_dumps json_loads http uniform).
Local Abbreviation fetch :=
  (IoClients.fetch json_dumps json_loads sha256_hexdigest upper CACHE_DIR http uniform).
Local Abbreviation record_source :=
  (IoClients.record_source json_dumps json_loads ART_DIR RUN_ID).

(** *** The cache branches *)

Lemma exists_true p w : exists_ p w = true ↔ is_Some (files w !! p).
Proof.
  unfold exists_. destruct (files w !! p); split; done.
Qed.

Lemma load_cached_frame provider key mode w :
  files (load_cached provider key mode w).2 = files w ∧
  requests (load_cached provider key mode w).2 = requests w ∧
  slept (load_cached provider key mode w).2 = slept w.
Proof.
  unfold IoClients.load_cached.
  destruct (files w !! key) as [content|]; [|done].
  by destruct (json_loads content).
Qed.

(** *** One attempt *)

Section Fetch.

Variable provider url method : string.
Variable params json_body headers : option dict.
Variable timeout_s : Q.

Local Abbreviation req := (mk_request method url params json_body headers timeout_s).
Local Abbreviation key := (_cache_key provider (payload_of url method params json_body)).
Local Abbreviation try_once' :=
  (try_once provider url method params json_body headers timeout_s).
Local Abbreviation attempt_loop' :=
  (attempt_loop provider url method params json_body headers).
Local Abbreviation attempt_fails :=
  (IoClients.attempt_fails http url method params json_body headers timeout_s).

(** An attempt changes the files only when it returns, and then by
    writing the returned data under the key; it sends one request
    and never sleeps. *)
Lemma try_once_effects k w :
  requests (try_once' k w).2 = S (requests w) ∧
  slept (try_once' k w).2 = slept w ∧
  match (try_once' k w).1 with
  | Returned data =>
      files (try_once' k w).2 =
        <[k := json_dumps false (Some 2%nat) data]> (files w)
  | Raised _ => files (try_once' k w).2 = files w
  end.
Proof.
  unfold IoClients.try_once.
  destruct (http req (requests w)) as [e|r]; [done|].
  destruct (bool_decide _); [done|].
  destruct (negb _); [done|].
  destruct (if contains _ _ then _ else _); done.
Qed.

(** The attempt that meets a retryable status raises. *)
Lemma try_once_retryable k w r :
  http req (requests w) = Response r →
  status_code r ∈ retryable_statuses →
  (try_once' k w).1 =
    Raised (RuntimeError ("retryable_status:" +:+ pretty (status_code r))).
Proof.
  intros Hrep Hst. unfold IoClients.try_once. rewrite Hrep.
  by rewrite bool_decide_eq_true_2.
Qed.

(** The attempt that meets any other status outside 200..299 raises
    too, from [raise_for_status]. *)
Lemma try_once_terminal k w r :
  http req (requests w) = Response r →
  status_code r ∉ retryable_statuses →
  is_success (status_code r) = false →
  (try_once' k w).1 = Raised (HTTPStatusError (status_code r)).
Proof.
  intros Hrep Hst Hok. unfold IoClients.try_once. rewrite Hrep.
  rewrite bool_decide_eq_false_2 by done. by rewrite Hok.
Qed.

Lemma try_once_transport k w e :
  http req (requests w) = Failed e → (try_once' k w).1 = Raised e.
Proof. intros Hrep. unfold IoClients.try_once. by rewrite Hrep. Qed.

(** The attempt that meets a good status returns the wrapped body. *)
Lemma try_once_success k w r body :
  http req (requests w) = Response r →
  status_code r ∉ retryable_statuses →
  is_success (status_code r) = true →
  (if contains "application/json" (default "" (content_type r))
   then json_loads (text r) else Some (JStr (text r))) = Some body →
  (try_once' k w).1 =
    Returned (JObj [("meta", JObj [("status", JNum (status_code r));
                                   ("ms", JNum (elapsed_ms r))]);
                    ("body", body)]).
Proof.
  intros Hrep Hst Hok Hbody. unfold IoClients.try_once. rewrite Hrep.
  rewrite bool_decide_eq_false_2 by done. rewrite Hok. cbn [negb].
  by rewrite Hbody.
Qed.

(** *** The retry loop *)

Lemma py_range_nil lo hi : hi ≤ lo → py_range lo hi = [].
Proof.
  intros Hle. unfold py_range.
  by replace (Z.to_nat (hi - lo)) with 0%nat by lia.
Qed.

Lemma py_range_cons lo hi : lo < hi → py_range lo hi = lo :: py_range (lo + 1) hi.
Proof.
  intros Hlt. unfold py_range.
  replace (Z.to_nat (hi - lo)) with (S (Z.to_nat (hi - (lo + 1)))) by lia.
  cbn [seq fmap list_fmap]. f_equal; [lia|].
  rewrite <- seq_shift, <- list_fmap_compose.
  apply list_fmap_ext. intros i x _. simpl. lia.
Qed.

(** The loop writes at most one file, the key, and only when it
    returns data; it never lowers the request count. *)
Lemma attempt_loop_files max_retries k attempts : ∀ delay w,
  (requests w ≤ requests (attempt_loop' max_retries timeout_s k attempts delay w).2)%nat ∧
  (files (attempt_loop' max_retries timeout_s k attempts delay w).2 = files w ∨
   ∃ data,
     (attempt_loop' max_retries timeout_s k attempts delay w).1 = Returned (Some data) ∧
     (requests w < requests (attempt_loop' max_retries timeout_s k attempts delay w).2)%nat ∧
     files (attempt_loop' max_retries timeout_s k attempts delay w).2 =
       <[k := json_dumps false (Some 2%nat) data]> (files w)).
Proof.
  induction attempts as [|attempt rest IH]; intros delay w; [by split; [|left]|].
  cbn [IoClients.attempt_loop].
  destruct (try_once_effects k w) as (Hreq & _ & Hfiles).
  destruct (try_once' k w) as [[data|e] w1]; cbn [fst snd] in *.
  - split; [lia|]. right. exists data. split; [done|]. split; [lia|done].
  - destruct (attempt =? max_retries); [split; [simpl; lia|by left]|].
    match goal with
    | |- context [attempt_loop' _ _ _ _ ?d ?w'] =>
        destruct (IH d w') as [Hle Hcase]
    end.
    cbn [requests files sleep log_to] in Hle, Hcase. rewrite Hfiles in Hcase.
    split; [lia|].
    destruct Hcase as [Hsame|(data & Hret & Hlt & Hwr)]; [by left|].
    right. exists data. split; [done|]. split; [lia|done].
Qed.

Lemma attempt_loop_return max_retries k attempt rest delay w data :
  (try_once' k w).1 = Returned data →
  attempt_loop' max_retries timeout_s k (attempt :: rest) delay w =
    (Returned (Some data), (try_once' k w).2).
Proof.
  intros Hret. cbn [IoClients.attempt_loop].
  destruct (try_once' k w) as [[d|e] w1]; cbn [fst snd] in *; congruence.
Qed.

Lemma attempt_loop_last max_retries k rest delay w e :
  (try_once' k w).1 = Raised e →
  attempt_loop' max_retries timeout_s k (max_retries :: rest) delay w =
    (Raised e, log_to (Warning (http_retry provider max_retries e)) (try_once' k w).2).
Proof.
  intros Hret. cbn [IoClients.attempt_loop].
  destruct (try_once' k w) as [[d|e'] w1]; cbn [fst snd] in *; [done|].
  rewrite Z.eqb_refl. congruence.
Qed.

Lemma attempt_loop_retry max_retries k attempt rest delay w e :
  (try_once' k w).1 = Raised e →
  attempt ≠ max_retries →
  attempt_loop' max_retries timeout_s k (attempt :: rest) delay w =
    attempt_loop' max_retries timeout_s k rest (delay * 2)%Q
      (sleep (delay + uniform (length (slept w)))%Q
         (log_to (Warning (http_retry provider attempt e)) (try_once' k w).2)).
Proof.
  intros Hret Hne. cbn [IoClients.attempt_loop].
  destruct (try_once_effects k w) as (_ & Hslept & _).
  destruct (try_once' k w) as [[d|e'] w1]; cbn [fst snd] in *; [done|].
  apply Z.eqb_neq in Hne. rewrite Hne.
  cbn [log_to slept]. rewrite Hslept. congruence.
Qed.

Lemma backoff_double j : (backoff j * 2)%Q = backoff (S j).
Proof.
  unfold backoff, Qmult, inject_Z. cbn [Qnum Qden Pos.mul]. f_equal.
  rewrite Nat2Z.inj_succ, Z.pow_succ_r by lia. lia.
Qed.

Lemma sleeps_from_cons j k m :
  sleeps_from uniform j k (S m) =
    (backoff j + uniform k)%Q :: sleeps_from uniform (S j) (S k) m.
Proof.
  unfold sleeps_from. cbn [seq fmap list_fmap].
  rewrite !Nat.add_0_r. f_equal.
  rewrite <- seq_shift, <- list_fmap_compose.
  apply list_fmap_ext. intros i x _. simpl.
  by rewrite !Nat.add_succ_r.
Qed.

(** When every attempt up to the last one raises, the loop sends
    one request per attempt, sleeps between them with doubled delay,
    leaves the files alone and raises the last error. *)
Lemma attempt_loop_exhaust max_retries k n : ∀ first j w (errs : nat → exn),
  first + Z.of_nat n = max_retries →
  (∀ i w0, (i ≤ n)%nat → requests w0 = (requests w + i)%nat →
           (try_once' k w0).1 = Raised (errs i)) →
  (attempt_loop' max_retries timeout_s k
     (py_range first (max_retries + 1)) (backoff j) w).1 = Raised (errs n) ∧
  requests (attempt_loop' max_retries timeout_s k
              (py_range first (max_retries + 1)) (backoff j) w).2 =
    (requests w + S n)%nat ∧
  slept (attempt_loop' max_retries timeout_s k
           (py_range first (max_retries + 1)) (backoff j) w).2 =
    slept w ++ sleeps_from uniform j (length (slept w)) n ∧
  files (attempt_loop' max_retries timeout_s k
           (py_range first (max_retries + 1)) (backoff j) w).2 = files w.
Proof.
  induction n as [|n IH]; intros first j w errs Hfirst Herrs.
  - rewrite py_range_cons by lia.
    replace first with max_retries by lia.
    pose proof (Herrs 0%nat w (le_n _) (eq_sym (Nat.add_0_r _))) as He.
    rewrite (attempt_loop_last _ _ _ _ _ _ He). cbn [fst snd log_to requests slept files].
    destruct (try_once_effects k w) as (Hreq & Hslept & Hfiles).
    rewrite He in Hfiles. rewrite Hreq, Hslept, Hfiles.
    split; [done|]. split; [lia|]. split; [|done].
    unfold sleeps_from. simpl. by rewrite app_nil_r.
  - rewrite py_range_cons by lia.
    pose proof (Herrs 0%nat w (Nat.le_0_l _) (eq_sym (Nat.add_0_r _))) as He.
    rewrite (attempt_loop_retry _ _ _ _ _ _ _ He) by lia.
    rewrite backoff_double.
    destruct (try_once_effects k w) as (Hreq & Hslept & Hfiles).
    rewrite He in Hfiles.
    match goal with
    | |- context [attempt_loop' _ _ _ _ _ ?w'] =>
        destruct (IH (first + 1) (S j) w' (λ i, errs (S i))) as (Hr & Hq & Hs & Hf)
    end.
    + lia.
    + intros i w0 Hi Hw0. apply Herrs; [lia|].
      rewrite Hw0. cbn [sleep log_to requests]. rewrite Hreq. lia.
    + rewrite Hr, Hq, Hs, Hf. cbn [sleep log_to requests slept files].
      rewrite Hreq, Hslept, Hfiles. split; [done|]. split; [lia|]. split; [|done].
      rewrite sleeps_from_cons, <- app_assoc, length_app. cbn [app length].
      by rewrite Nat.add_1_r.
Qed.

Local Abbreviation fetch' :=
  (fetch provider url method params json_body headers).

(** Without [cache_only], a call that finds no usable entry goes
    to the retry loop. *)
Lemma fetch_live max_retries use_cache w :
  use_cache = false ∨ files w !! key = None →
  fetch' max_retries timeout_s use_cache false w =
    attempt_loop' max_retries timeout_s key
      (py_range 1 (max_retries + 1)) (backoff 0) w.
Proof.
  intros Hmiss. unfold IoClients.fetch.
  replace (use_cache && exists_ key w) with false; [done|].
  destruct Hmiss as [->|Hnone]; [done|].
  unfold exists_. rewrite Hnone. by rewrite andb_false_r.
Qed.

(** With [max_retries] below 1 the range is empty: no request is sent and
    the call returns [None]. *)
Lemma fetch_no_attempts max_retries use_cache w :
  max_retries ≤ 0 →
  use_cache = false ∨ files w !! key = None →
  fetch' max_retries timeout_s use_cache false w = (Returned None, w).
Proof.
  intros Hle Hmiss. rewrite fetch_live by done.
  by rewrite py_range_nil by lia.
Qed.

(** *** Cache-only mode *)

(** C4. With [cache_only=true], [fetch] returns the parsed content
    of the cache file when the file exists, raises
    [FileNotFoundError] (the cache miss) when it does not, and in
    every case sends no HTTP request. *)
Theorem fetch_cache_only
    (max_retries : Z) (use_cache : bool) (w : world) :
  (∀ content data,
     files w !! key = Some content → json_loads content = Some data →
     (fetch' max_retries timeout_s use_cache true w).1 = Returned (Some data)) ∧
  (files w !! key = None →
     (fetch' max_retries timeout_s use_cache true w).1 =
       Raised (FileNotFoundError
                 ("cache_only: no cache for " +:+ provider +:+ " " +:+ url))) ∧
  requests (fetch' max_retries timeout_s use_cache true w).2 = requests w.
Proof.
  unfold IoClients.fetch, exists_, IoClients.load_cached. split; [|split].
  - intros content data Hfile Hparse. by rewrite Hfile, Hparse.
  - intros Hnone. by rewrite Hnone.
  - destruct (files w !! key) as [content|]; [|done].
    by destruct (json_loads content).
Qed.

(** C10. With [cache_only=true], [fetch] leaves every file as it
    was; in any mode, the files change only in a call without
    [cache_only] that sent a request and returns data, and then by
    the write of that data under the key. *)
Theorem fetch_cache_only_writes_nothing
    (max_retries : Z) (use_cache : bool) (w : world) :
  files (fetch' max_retries timeout_s use_cache true w).2 = files w ∧
  (∀ cache_only,
     files (fetch' max_retries timeout_s use_cache cache_only w).2 = files w ∨
     (cache_only = false ∧
      ∃ data,
        (fetch' max_retries timeout_s use_cache cache_only w).1 =
          Returned (Some data) ∧
        (requests w <
           requests (fetch' max_retries timeout_s use_cache cache_only w).2)%nat ∧
        files (fetch' max_retries timeout_s use_cache cache_only w).2 =
          <[key := json_dumps false (Some 2%nat) data]> (files w))).
Proof.
  assert (Honly : files (fetch' max_retries timeout_s use_cache true w).2 = files w).
  { unfold IoClients.fetch. destruct (exists_ key w); [|done].
    apply load_cached_frame. }
  split; [done|]. intros [|]; [by left|].
  unfold IoClients.fetch.
  destruct (use_cache && exists_ key w); [left; apply load_cached_frame|].
  destruct (attempt_loop_files max_retries key
              (py_range 1 (max_retries + 1)) 1%Q w) as [_ [Hsame|Hwr]];
    [by left | right; by split].
Qed.

(** C1, as the code has it. When the cache file of the request
    holds text that [json.loads] rejects, [fetch] with
    [cache_only=true], and [fetch] with [use_cache=true], raise the
    decode error to the caller, with no request sent and nothing
    changed; only with both flags false is the file not read and the
    live fetch performed, which sends a request when [max_retries]
    is at least 1. *)
Theorem fetch_corrupt_entry_raises
    (max_retries : Z) (w : world) (content : string)
    (Hfile : files w !! key = Some content)
    (Hcorrupt : json_loads content = None) :
  (∀ use_cache,
     fetch' max_retries timeout_s use_cache true w = (Raised JSONDecodeError, w)) ∧
  fetch' max_retries timeout_s true false w = (Raised JSONDecodeError, w) ∧
  fetch' max_retries timeout_s false false w =
    attempt_loop' max_retries timeout_s key
      (py_range 1 (max_retries + 1)) (backoff 0) w ∧
  (1 ≤ max_retries →
   (requests w < requests (fetch' max_retries timeout_s false false w).2)%nat).
Proof.
  split; [|split; [|split]].
  - intros use_cache. unfold IoClients.fetch, exists_, IoClients.load_cached.
    by rewrite Hfile, Hcorrupt.
  - unfold IoClients.fetch, exists_, IoClients.load_cached.
    by rewrite Hfile, Hcorrupt.
  - apply fetch_live. by left.
  - intros Hpos. rewrite fetch_live; [|by left].
    rewrite py_range_cons by lia. cbn [IoClients.attempt_loop].
    destruct (try_once_effects key w) as (Hreq & _ & _).
    destruct (try_once' key w) as [[data|e] w1]; cbn [fst snd] in *; [lia|].
    destruct (1 =? max_retries); [cbn [snd log_to requests]; lia|].
    match goal with
    | |- context [attempt_loop' _ _ _ ?a ?d ?w'] =>
        pose proof (proj1 (attempt_loop_files max_retries key a d w')) as Hle
    end.
    cbn [sleep log_to requests] in Hle. lia.
Qed.

(** *** Retries *)

(** C2, at its failing inputs. A status outside 200..299 and
    outside the retryable set, returned at every attempt, is retried
    like a retryable one: with [max_retries = N ≥ 1] the call sends
    [N] requests and sleeps [N - 1] times before it raises the
    status error of the last attempt. *)
Theorem terminal_status_is_retried
    (N : Z) (use_cache : bool) (w : world) (rs : nat → response)
    (HN : 1 ≤ N)
    (Hmiss : use_cache = false ∨ files w !! key = None)
    (Hreplies : ∀ i, http req (requests w + i) = Response (rs i) ∧
                     (status_code (rs i) ∉ retryable_statuses) ∧
                     is_success (status_code (rs i)) = false) :
  (fetch' N timeout_s use_cache false w).1 =
    Raised (HTTPStatusError (status_code (rs (Z.to_nat (N - 1))))) ∧
  requests (fetch' N timeout_s use_cache false w).2 = (requests w + Z.to_nat N)%nat ∧
  slept (fetch' N timeout_s use_cache false w).2 =
    slept w ++ sleeps_from uniform 0 (length (slept w)) (Z.to_nat (N - 1)).
Proof.
  rewrite fetch_live by done.
  destruct (attempt_loop_exhaust N key (Z.to_nat (N - 1)) 1 0%nat w
              (λ i, HTTPStatusError (status_code (rs i))))
    as (Hr & Hq & Hs & _).
  - lia.
  - intros i w0 _ Hw0. destruct (Hreplies i) as (Hrep & Hst & Hok).
    apply try_once_terminal; [by rewrite Hw0|done|done].
  - rewrite Hr, Hq, Hs. split; [done|]. split; [lia|done].
Qed.

Lemma attempt_fails_raises k w :
  attempt_fails (requests w) → ∃ e, (try_once' k w).1 = Raised e.
Proof.
  intros [[e He]|(r & Hr & Hst)].
  - exists e. by apply try_once_transport.
  - eexists. by apply try_once_retryable.
Qed.

Lemma sleeps_from_lookup j k m i d :
  sleeps_from uniform j k m !! i = Some d →
  d = (backoff (j + i) + uniform (k + i)%nat)%Q.
Proof.
  unfold sleeps_from. rewrite list_lookup_fmap.
  destruct (seq 0 m !! i) as [x|] eqn:Hx; [|done].
  apply lookup_seq in Hx as [-> _]. simpl. congruence.
Qed.

(** C5. Without a usable cache entry: when every attempt meets a
    retryable status, [fetch] with [max_retries = N ≥ 1] sends
    exactly [N] requests, sleeps [N - 1] times, changes no file and
    raises the error of the last attempt; when the first two attempts
    fail and the third meets status 200, [fetch] with [max_retries ≥
    3] returns the wrapped body after 3 requests and 2 sleeps, and
    the cache file of the request then holds the dumped result. The
    wait number [i] (from 0) is [2^i] seconds plus the jitter drawn,
    which lies in [0, 0.5). *)
Theorem fetch_retry_bound
    (N : Z) (use_cache : bool) (w : world)
    (rs : nat → response) (r3 : response) (body : json)
    (Hmiss : use_cache = false ∨ files w !! key = None)
    (Hjitter : ∀ i, (0 <= uniform i)%Q ∧ (uniform i < 1 # 2)%Q) :
  (1 ≤ N →
   (∀ i, http req (requests w + i) = Response (rs i) ∧
         status_code (rs i) ∈ retryable_statuses) →
   (fetch' N timeout_s use_cache false w).1 =
     Raised (RuntimeError ("retryable_status:" +:+
                           pretty (status_code (rs (Z.to_nat (N - 1)))))) ∧
   requests (fetch' N timeout_s use_cache false w).2 =
     (requests w + Z.to_nat N)%nat ∧
   slept (fetch' N timeout_s use_cache false w).2 =
     slept w ++ sleeps_from uniform 0 (length (slept w)) (Z.to_nat (N - 1)) ∧
   files (fetch' N timeout_s use_cache false w).2 = files w) ∧
  (3 ≤ N →
   attempt_fails (requests w) → attempt_fails (requests w + 1) →
   http req (requests w + 2) = Response r3 →
   status_code r3 = 200 →
   (if contains "application/json" (default "" (content_type r3))
    then json_loads (text r3) else Some (JStr (text r3))) = Some body →
   let data := JObj [("meta", JObj [("status", JNum 200);
                                    ("ms", JNum (elapsed_ms r3))]);
                     ("body", body)] in
   (fetch' N timeout_s use_cache false w).1 = Returned (Some data) ∧
   requests (fetch' N timeout_s use_cache false w).2 = (requests w + 3)%nat ∧
   slept (fetch' N timeout_s use_cache false w).2 =
     slept w ++ sleeps_from uniform 0 (length (slept w)) 2 ∧
   files (fetch' N timeout_s use_cache false w).2 !! key =
     Some (json_dumps false (Some 2%nat) data)) ∧
  (backoff 0 = 1%Q ∧
   (∀ i, backoff (S i) = (backoff i * 2)%Q) ∧
   ∀ k m i d,
     sleeps_from uniform 0 k m !! i = Some d →
     d = (backoff i + uniform (k + i)%nat)%Q ∧
     (backoff i <= d)%Q ∧ (d < backoff i + (1 # 2))%Q).
Proof.
  split; [|split].
  - intros HN Hreplies. rewrite fetch_live by done.
    destruct (attempt_loop_exhaust N key (Z.to_nat (N - 1)) 1 0%nat w
                (λ i, RuntimeError ("retryable_status:" +:+
                                    pretty (status_code (rs i)))))
      as (Hr & Hq & Hs & Hf).
    + lia.
    + intros i w0 _ Hw0. destruct (Hreplies i) as (Hrep & Hst).
      apply try_once_retryable; [by rewrite Hw0|done].
    + rewrite Hr, Hq, Hs, Hf. split; [done|]. split; [lia|done].
  - intros HN Hfail1 Hfail2 Hrep3 H200 Hbody data.
    rewrite fetch_live by done.
    rewrite py_range_cons by lia. cbn [Z.add Pos.add].
    destruct (attempt_fails_raises key w Hfail1) as [e1 He1].
    rewrite (attempt_loop_retry _ _ _ _ _ _ _ He1) by lia.
    destruct (try_once_effects key w) as (Hreq1 & Hslept1 & Hfiles1).
    rewrite He1 in Hfiles1.
    set (w1 := sleep _ (log_to _ (try_once' key w).2)).
    assert (Hw1 : requests w1 = (requests w + 1)%nat ∧
                  slept w1 = slept w ++ [(backoff 0 + uniform (length (slept w)))%Q] ∧
                  files w1 = files w).
    { subst w1. cbn [sleep log_to requests slept files].
      rewrite Hreq1, Hslept1, Hfiles1. split; [lia|done]. }
    clearbody w1. destruct Hw1 as (Hq1 & Hs1 & Hf1).
    rewrite py_range_cons by lia. cbn [Z.add Pos.add Pos.succ].
    rewrite <- Hq1 in Hfail2.
    destruct (attempt_fails_raises key w1 Hfail2) as [e2 He2].
    rewrite (attempt_loop_retry _ _ _ _ _ _ _ He2) by lia.
    destruct (try_once_effects key w1) as (Hreq2 & Hslept2 & Hfiles2).
    rewrite He2 in Hfiles2.
    set (w2 := sleep _ (log_to _ (try_once' key w1).2)).
    assert (Hw2 : requests w2 = (requests w + 2)%nat ∧
                  slept w2 = slept w ++ sleeps_from uniform 0 (length (slept w)) 2 ∧
                  files w2 = files w).
    { subst w2. cbn [sleep log_to requests slept files].
      rewrite Hreq2, Hslept2, Hfiles2, Hs1, Hf1, Hq1.
      split; [lia|]. split; [|done].
      rewrite <- app_assoc, length_app. cbn [app length].
      unfold sleeps_from. cbn [seq fmap list_fmap].
      rewrite !Nat.add_0_r. reflexivity. }
    clearbody w2. destruct Hw2 as (Hq2 & Hs2 & Hf2).
    rewrite py_range_cons by lia.
    assert (Hret : (try_once' key w2).1 = Returned data).
    { subst data. rewrite <- H200.
      apply try_once_success; [by rewrite Hq2| |by rewrite H200|done].
      rewrite H200. unfold retryable_statuses. set_solver. }
    rewrite (attempt_loop_return _ _ _ _ _ _ _ Hret).
    destruct (try_once_effects key w2) as (Hreq3 & Hslept3 & Hfiles3).
    rewrite Hret in Hfiles3. cbn [fst snd].
    rewrite Hreq3, Hslept3, Hfiles3, Hq2, Hs2.
    split; [done|]. split; [lia|]. split; [done|].
    apply lookup_insert_eq.
  - split; [done|]. split; [intros i; symmetry; apply backoff_double|].
    intros k m i d Hd. apply sleeps_from_lookup in Hd.
    cbn [Nat.add] in Hd. subst d. split; [done|].
    destruct (Hjitter (k + i)%nat) as [Hlo Hhi]. split.
    + rewrite <- (Qplus_0_r (backoff i)) at 1. by apply Qplus_le_r.
    + by apply Qplus_lt_r.
Qed.

End Fetch.

(** *** The cache key *)

Lemma length_substring_0 n s :
  (n ≤ String.length s)%nat → String.length (substring 0 n s) = n.
Proof.
  revert s. induction n as [|n IH]; intros [|c s] Hle; simpl in *; try done; try lia.
  f_equal. apply IH. lia.
Qed.

(** C6. The digest in the cache key is a function of the payload
    built from URL, method, params and body alone: two requests whose
    payloads agree get the same digest, whatever their providers; the
    digest has 16 characters; the provider only prefixes the file
    name. *)
Theorem cache_key_digest_of_payload
    (provider1 provider2 url1 url2 method1 method2 : string)
    (params1 params2 body1 body2 : option dict)
    (Hsha : ∀ s, String.length (sha256_hexdigest s) = 64%nat)
    (Hsame : payload_of url1 method1 params1 body1 =
             payload_of url2 method2 params2 body2) :
  cache_digest (payload_of url1 method1 params1 body1) =
    cache_digest (payload_of url2 method2 params2 body2) ∧
  String.length (cache_digest (payload_of url1 method1 params1 body1)) = 16%nat ∧
  _cache_key provider1 (payload_of url1 method1 params1 body1) =
    path_join CACHE_DIR
      (provider1 +:+ "-" +:+ cache_digest (payload_of url1 method1 params1 body1)
         +:+ ".json") ∧
  _cache_key provider2 (payload_of url2 method2 params2 body2) =
    path_join CACHE_DIR
      (provider2 +:+ "-" +:+ cache_digest (payload_of url1 method1 params1 body1)
         +:+ ".json").
Proof.
  split; [by rewrite Hsame|]. split; [|split].
  - unfold IoClients.cache_digest. apply length_substring_0. rewrite Hsha. lia.
  - done.
  - unfold IoClients._cache_key. by rewrite Hsame.
Qed.

(** *** The provenance helper *)

Local Abbreviation source_path store_as :=
  (path_join ART_DIR (RUN_ID +:+ "." +:+ store_as)).

(** When the log is absent or is not JSON, the new record is written
    alone; when it holds a JSON array, the new record is written
    after the old ones. *)
Lemma record_source_appends now claim url snippet store_as w :
  (files w !! source_path store_as = None ∨
   ∃ content, files w !! source_path store_as = Some content ∧
              json_loads content = None) →
  (record_source now claim url snippet store_as w).1 = Returned () ∧
  files (record_source now claim url snippet store_as w).2 =
    <[source_path store_as :=
        json_dumps false (Some 2%nat) (JArr [source_entry now claim url snippet])]>
      (files w).
Proof.
  unfold IoClients.record_source, exists_.
  intros [Hnone|(content & Hfile & Hbad)].
  - by rewrite Hnone.
  - by rewrite Hfile, Hbad.
Qed.

Lemma record_source_appends_to_array now claim url snippet store_as w content records :
  files w !! source_path store_as = Some content →
  json_loads content = Some (JArr records) →
  (record_source now claim url snippet store_as w).1 = Returned () ∧
  files (record_source now claim url snippet store_as w).2 =
    <[source_path store_as :=
        json_dumps false (Some 2%nat)
          (JArr (records ++ [source_entry now claim url snippet]))]>
      (files w).
Proof.
  unfold IoClients.record_source, exists_. intros Hfile Hparse.
  by rewrite Hfile, Hparse.
Qed.

(** C9, at its failing inputs. When the log file holds JSON that is
    not an array, [record_source] raises [AttributeError] from
    [items.append] and writes nothing: the new record is lost and the
    malformed log reaches the caller as an exception. *)
Theorem record_source_non_array_log_raises
    (now claim url snippet store_as : string) (w : world)
    (content : string) (v : json)
    (Hfile : files w !! source_path store_as = Some content)
    (Hparse : json_loads content = Some v)
    (Hshape : ∀ records, v ≠ JArr records) :
  record_source now claim url snippet store_as w =
    (Raised (AttributeError "append"), w).
Proof.
  unfold IoClients.record_source, exists_. rewrite Hfile, Hparse.
  destruct v; try done. by destruct (Hshape items).
Qed.

End Library.

(** *** Concrete runs *)

Import Demo.

Lemma pad_length n : ∀ s, String.length (pad n s) = n.
Proof. induction n as [|n IH]; intros [|c s]; simpl; by rewrite ?IH. Qed.

Lemma quarter_in_range i : (0 <= quarter i)%Q ∧ (quarter i < 1 # 2)%Q.
Proof. split; unfold quarter, Qle, Qlt; simpl; lia. Qed.

Lemma busy_is_retryable : 503 ∈ retryable_statuses.
Proof. unfold retryable_statuses. set_solver. Qed.

Lemma not_found_is_terminal : 404 ∉ retryable_statuses.
Proof. unfold retryable_statuses. set_solver. Qed.

(** A cache file that does not parse makes the default call fail with
    the decode error; no request is sent, so nothing is fetched. *)
Lemma corrupt_entry_is_not_a_miss :
  files (world_with the_key "{oops") !! the_key = Some "{oops" ∧
  loads "{oops" = None ∧
  get twice_busy 4 true false (world_with the_key "{oops") =
    (Raised JSONDecodeError, world_with the_key "{oops") ∧
  requests (get twice_busy 4 true false (world_with the_key "{oops")).2 = 0%nat.
Proof. vm_compute. by repeat split. Qed.

Lemma fetch_corrupt_entry_raises_witness :
  (files (world_with the_key "{oops") !! the_key = Some "{oops" ∧
   loads "{oops" = None) ∧
  (∀ use_cache,
     get twice_busy 4 use_cache true (world_with the_key "{oops") =
       (Raised JSONDecodeError, world_with the_key "{oops")) ∧
  get twice_busy 4 true false (world_with the_key "{oops") =
    (Raised JSONDecodeError, world_with the_key "{oops").
Proof.
  assert (Hfile : files (world_with the_key "{oops") !! the_key = Some "{oops")
    by (vm_compute; reflexivity).
  split; [by split|].
  destruct (fetch_corrupt_entry_raises dumps loads digest upper_ascii "cache"
              twice_busy quarter "brave" "https://api.test/q" "GET" None None None
              30%Q 4 (world_with the_key "{oops") "{oops" Hfile eq_refl)
    as (Honly & Hdefault & _).
  split; [exact Honly | exact Hdefault].
Defined.

Lemma terminal_status_is_retried_witness :
  (get (always 404) 4 true false empty_world).1 = Raised (HTTPStatusError 404) ∧
  requests (get (always 404) 4 true false empty_world).2 = 4%nat ∧
  slept (get (always 404) 4 true false empty_world).2 = [5 # 4; 9 # 4; 17 # 4].
Proof.
  apply (terminal_status_is_retried dumps loads digest upper_ascii "cache"
           (always 404) quarter "brave" "https://api.test/q" "GET" None None None
           30%Q 4 true empty_world
           (λ _, mk_response 404 (Some "text/plain") "sorry" 5)).
  - lia.
  - right. vm_compute. reflexivity.
  - intros i. split; [reflexivity|]. split; [exact not_found_is_terminal|reflexivity].
Defined.

Lemma fetch_cache_only_witness :
  (get twice_busy 4 true true (world_with the_key "{}")).1 = Returned (Some (JObj [])) ∧
  (get twice_busy 4 true true empty_world).1 =
    Raised (FileNotFoundError "cache_only: no cache for brave https://api.test/q") ∧
  requests (get twice_busy 4 true true (world_with the_key "{}")).2 = 0%nat ∧
  requests (get twice_busy 4 true true empty_world).2 = 0%nat.
Proof.
  pose proof (fetch_cache_only dumps loads digest upper_ascii "cache"
                twice_busy quarter "brave" "https://api.test/q" "GET" None None None
                30%Q 4 true (world_with the_key "{}")) as (Hhit & _ & Hreq1).
  pose proof (fetch_cache_only dumps loads digest upper_ascii "cache"
                twice_busy quarter "brave" "https://api.test/q" "GET" None None None
                30%Q 4 true empty_world) as (_ & Hmiss & Hreq2).
  split; [|split; [|split]].
  - apply (Hhit "{}" (JObj [])); vm_compute; reflexivity.
  - apply Hmiss. vm_compute. reflexivity.
  - exact Hreq1.
  - exact Hreq2.
Defined.

Lemma fetch_retry_bound_witness :
  ((get (always 503) 4 true false empty_world).1 =
     Raised (RuntimeError "retryable_status:503") ∧
   requests (get (always 503) 4 true false empty_world).2 = 4%nat ∧
   slept (get (always 503) 4 true false empty_world).2 = [5 # 4; 9 # 4; 17 # 4] ∧
   files (get (always 503) 4 true false empty_world).2 = ∅) ∧
  ((get twice_busy 4 true false empty_world).1 =
     Returned (Some (JObj [("meta", JObj [("status", JNum 200); ("ms", JNum 7)]);
                           ("body", JObj [])])) ∧
   requests (get twice_busy 4 true false empty_world).2 = 3%nat ∧
   slept (get twice_busy 4 true false empty_world).2 = [5 # 4; 9 # 4] ∧
   files (get twice_busy 4 true false empty_world).2 !! the_key =
     Some (dumps false (Some 2%nat)
             (JObj [("meta", JObj [("status", JNum 200); ("ms", JNum 7)]);
                    ("body", JObj [])]))).
Proof.
  split.
  - apply (proj1 (fetch_retry_bound dumps loads digest upper_ascii "cache"
                    (always 503) quarter "brave" "https://api.test/q" "GET"
                    None None None 30%Q 4 true empty_world
                    (λ _, mk_response 503 (Some "text/plain") "sorry" 5)
                    (mk_response 200 None "" 0) JNull
                    (or_intror eq_refl) quarter_in_range)).
    + lia.
    + intros i. split; [reflexivity | exact busy_is_retryable].
  - apply (proj1 (proj2 (fetch_retry_bound dumps loads digest upper_ascii "cache"
                    twice_busy quarter "brave" "https://api.test/q" "GET"
                    None None None 30%Q 4 true empty_world
                    (λ _, mk_response 503 (Some "text/plain") "busy" 5)
                    (mk_response 200 (Some "application/json") "{}" 7) (JObj [])
                    (or_intror eq_refl) quarter_in_range))).
    + lia.
    + right. eexists. split; [reflexivity | exact busy_is_retryable].
    + right. eexists. split; [reflexivity | exact busy_is_retryable].
    + reflexivity.
    + reflexivity.
    + reflexivity.
Defined.

Lemma cache_key_digest_of_payload_witness :
  cache_digest dumps digest (payload_of upper_ascii "https://api.test/q" "get" None None) =
    cache_digest dumps digest
      (payload_of upper_ascii "https://api.test/q" "GET" (Some []) None) ∧
  String.length
    (cache_digest dumps digest
       (payload_of upper_ascii "https://api.test/q" "get" None None)) = 16%nat ∧
  _cache_key dumps digest "cache" "brave"
    (payload_of upper_ascii "https://api.test/q" "get" None None) =
    path_join "cache"
      ("brave" +:+ "-" +:+
       cache_digest dumps digest
         (payload_of upper_ascii "https://api.test/q" "get" None None) +:+ ".json") ∧
  _cache_key dumps digest "cache" "ddg"
    (payload_of upper_ascii "https://api.test/q" "GET" (Some []) None) =
    path_join "cache"
      ("ddg" +:+ "-" +:+
       cache_digest dumps digest
         (payload_of upper_ascii "https://api.test/q" "get" None None) +:+ ".json").
Proof.
  apply (cache_key_digest_of_payload dumps digest upper_ascii "cache" "brave" "ddg"
           "https://api.test/q" "https://api.test/q" "get" "GET"
           None (Some []) None None (pad_length 64) eq_refl).
Defined.

Lemma record_source_non_array_log_raises_witness :
  files (world_with the_log "{}") !! the_log = Some "{}" ∧
  loads "{}" = Some (JObj []) ∧
  record (world_with the_log "{}") =
    (Raised (AttributeError "append"), world_with the_log "{}").
Proof.
  assert (Hfile : files (world_with the_log "{}") !! the_log = Some "{}")
    by (vm_compute; reflexivity).
  split; [exact Hfile|]. split; [reflexivity|].
  apply (record_source_non_array_log_raises dumps loads "runs" "ae30a38d"
           "2025-07-30T12:00:00Z" "Search evidence" "https://fed.test/a"
           "rates unchanged" "sources.json" (world_with the_log "{}") "{}" (JObj [])
           Hfile eq_refl).
  intros records. discriminate.
Defined.

End IoClientsFacts.

(** ** More on serp_utils.py *)

Module SerpUtilsMore.
Import Py SerpUtils Demo.

Section Recorder.

Variable strip : string -> string.

Local Abbreviation item_url := (SerpUtils.item_url strip).
Local Abbreviation normalized := (SerpUtils.normalized strip).
Local Abbreviation source_of := (SerpUtils.source_of strip).
Local Abbreviation scan := (SerpUtils.scan strip).
Local Abbreviation record_query_results := (SerpUtils.record_query_results strip).
Local Abbreviation run_queries := (SerpUtils.run_queries strip).
Local Abbreviation after_accepting := (SerpUtils.after_accepting strip).
Local Abbreviation fresh := (SerpUtils.fresh strip).

(** The loop takes the fresh items one by one until there is no room. *)
Lemma scan_takes_fresh results : ∀ query taken rank self log,
  scan results query taken rank self log =
    (taken + Z.of_nat (length (take (room self taken) (fresh (_seen_urls self) results))),
     after_accepting self (take (room self taken) (fresh (_seen_urls self) results)),
     log ++ imap (λ i it, source_of query (rank + 1 + Z.of_nat i) it)
              (take (room self taken) (fresh (_seen_urls self) results))).
Proof.
  induction results as [|it rest IH]; intros query taken rank self log.
  - cbn [SerpUtils.fresh]. rewrite take_nil. apply (SerpUtilsFacts.scan_nothing strip).
  - cbn [SerpUtils.scan SerpUtils.fresh].
    destruct (String.eqb (item_url it) "") eqn:Hempty; [apply IH|].
    destruct ((top_k_per_query self <=? taken) || negb (_can_record_more self)) eqn:Hstop.
    { assert (Hroom : room self taken = 0%nat).
      { unfold room, _can_record_more in *.
        apply orb_true_iff in Hstop as [Hk|Hc].
        - apply Z.leb_le in Hk. destruct (run_cap self); lia.
        - apply negb_true_iff in Hc. destruct (run_cap self) as [cap|]; [|done].
          apply Z.ltb_ge in Hc. lia. }
      rewrite Hroom, take_0. apply (SerpUtilsFacts.scan_nothing strip). }
    destruct (decide (item_url it ∈ _seen_urls self)) as [Hseen|Hnew]; [apply IH|].
    apply orb_false_iff in Hstop as [Hk Hcap].
    apply Z.leb_gt in Hk. apply negb_false_iff in Hcap.
    rewrite IH. cbn [_seen_urls top_k_per_query run_cap _total_recorded _agg_results].
    assert (Hroom : room self taken =
                    S (room (mk_recorder (top_k_per_query self) (run_cap self)
                               ({[item_url it]} ∪ _seen_urls self)
                               (_total_recorded self + 1)
                               (_agg_results self ++
                                  [mk_result (or_empty (dict_get it "title")) (item_url it)
                                     (dict_get_default it "snippet" (PStr ""))
                                     (dict_get_default it "provider" (PStr "unknown"))]))
                          (taken + 1))).
    { unfold room, _can_record_more in *. cbn [top_k_per_query run_cap _total_recorded].
      destruct (run_cap self) as [cap|]; [apply Z.ltb_lt in Hcap|]; lia. }
    rewrite Hroom. cbn [take length].
    set (acc := take _ (fresh _ rest)).
    unfold SerpUtils.after_accepting, record_source_jsonl.
    cbn [_seen_urls top_k_per_query run_cap _total_recorded _agg_results
         fmap list_fmap imap].
    rewrite ?length_cons, ?Nat2Z.inj_succ. f_equal; [f_equal|].
    + lia.
    + f_equal; [set_solver | lia | by rewrite <- app_assoc].
    + rewrite <- app_assoc. cbn [app]. f_equal. f_equal.
      * unfold SerpUtils.source_of. do 2 f_equal. cbn. lia.
      * apply imap_ext. intros i x _. cbn. unfold SerpUtils.source_of.
        do 2 f_equal. lia.
Qed.

(** Every URL of the input that is not empty is seen once the fresh items
    are. *)
Lemma fresh_covers results : ∀ seen it,
  it ∈ results → item_url it ≠ "" →
  item_url it ∈ seen ∪ list_to_set (item_url <$> fresh seen results).
Proof.
  induction results as [|x rest IH]; intros seen it Hin Hne.
  - by apply elem_of_nil in Hin.
  - cbn [SerpUtils.fresh].
    apply elem_of_cons in Hin as [->|Hin].
    + apply String.eqb_neq in Hne. rewrite Hne.
      destruct (decide (item_url x ∈ seen)); [set_solver|].
      rewrite fmap_cons, list_to_set_cons. set_solver.
    + destruct (String.eqb (item_url x) ""); [by apply IH|].
      destruct (decide (item_url x ∈ seen)); [by apply IH|].
      rewrite fmap_cons, list_to_set_cons.
      specialize (IH ({[item_url x]} ∪ seen) it Hin Hne). set_solver.
Qed.

Lemma fresh_nothing results : ∀ seen,
  (∀ it, it ∈ results → item_url it ≠ "" → item_url it ∈ seen) →
  fresh seen results = [].
Proof.
  induction results as [|x rest IH]; intros seen Hall; [done|].
  cbn [SerpUtils.fresh].
  destruct (String.eqb (item_url x) "") eqn:Hempty.
  - apply IH. intros it Hin. apply Hall. by right.
  - apply String.eqb_neq in Hempty.
    rewrite decide_True by (apply Hall; [by left|done]).
    apply IH. intros it Hin. apply Hall. by right.
Qed.

Lemma fresh_length_le results : ∀ seen, (length (fresh seen results) ≤ length results)%nat.
Proof.
  induction results as [|x rest IH]; intros seen; [done|].
  cbn [SerpUtils.fresh length].
  destruct (String.eqb _ _); [specialize (IH seen); lia|].
  destruct (decide _); [specialize (IH seen); lia|].
  cbn [length]. specialize (IH ({[item_url x]} ∪ seen)). lia.
Qed.

(** X1. A call accepts exactly the first fresh items of its input, as
    many as the quota and what is left of the run cap allow: the count
    returned is the smaller of the room and the number of fresh items. *)
Theorem record_query_results_takes_first_fresh
    (results : list item) (query : string)
    (self : SerpRecorder) (log : list source_record) :
  record_query_results results query (self, log) =
    (Z.of_nat (length (take (room self 0) (fresh (_seen_urls self) results))),
     (after_accepting self (take (room self 0) (fresh (_seen_urls self) results)),
      log ++ imap (λ i it, source_of query (Z.of_nat i + 1) it)
               (take (room self 0) (fresh (_seen_urls self) results)))) ∧
  (record_query_results results query (self, log)).1 =
    Z.of_nat (room self 0 `min` length (fresh (_seen_urls self) results)).
Proof.
  assert (Heq : record_query_results results query (self, log) =
    (Z.of_nat (length (take (room self 0) (fresh (_seen_urls self) results))),
     (after_accepting self (take (room self 0) (fresh (_seen_urls self) results)),
      log ++ imap (λ i it, source_of query (Z.of_nat i + 1) it)
               (take (room self 0) (fresh (_seen_urls self) results))))).
  { unfold SerpUtils.record_query_results. cbn [fst snd].
    rewrite scan_takes_fresh. cbn [Z.add]. do 3 f_equal.
    apply imap_ext. intros i x _. cbn. f_equal. lia. }
  split; [exact Heq|]. rewrite Heq. cbn [fst]. by rewrite length_take.
Qed.

(** X2. When a call had room for every fresh item of its input, calling
    again with the same input accepts nothing and changes nothing. *)
Theorem record_query_results_again
    (results : list item) (query query' : string)
    (self : SerpRecorder) (log : list source_record)
    (Hroom : (length (fresh (_seen_urls self) results) ≤ room self 0)%nat) :
  record_query_results results query'
    (record_query_results results query (self, log)).2 =
  (0, (record_query_results results query (self, log)).2).
Proof.
  unfold SerpUtils.record_query_results at 2 3. cbn [fst snd].
  rewrite scan_takes_fresh. cbn [fst snd].
  rewrite take_ge by done.
  unfold SerpUtils.record_query_results.  cbn [fst snd].
  rewrite scan_takes_fresh.
  rewrite (fresh_nothing results
             (_seen_urls (after_accepting self (fresh (_seen_urls self) results)))).
  - rewrite take_nil. cbn [length imap Z.of_nat Z.add].
    rewrite (SerpUtilsFacts.after_accepting_nil strip), app_nil_r. reflexivity.
  - intros it Hin Hne. cbn [SerpUtils.after_accepting _seen_urls].
    by apply fresh_covers.
Qed.

(** *** Counters of a run *)

Lemma in_step_call results query w :
  in_step w → in_step (record_query_results results query w).2.
Proof.
  destruct w as [self log]. intros (Htot & Hseen & Hnd & Hlog & Hne).
  destruct (SerpUtilsFacts.record_query_results_spec strip results query self log)
    as (acc & (Hsub & Hall & Hnd') & _ & ->).
  cbn [fst snd] in *. unfold in_step, SerpUtils.after_accepting.
  cbn [fst snd _total_recorded _agg_results _seen_urls].
  rewrite fmap_app, (SerpUtilsFacts.normalized_urls strip), !length_app,
    length_fmap, length_imap.
  split; [lia|]. split; [|split; [|split]].
  - rewrite Hseen, list_to_set_app_L. reflexivity.
  - apply NoDup_app. split; [done|]. split; [|done].
    intros u Hu Hu'. apply list_elem_of_fmap in Hu' as (x & -> & Hx).
    rewrite Forall_forall in Hall. destruct (Hall x Hx) as [_ Hnot].
    apply Hnot. rewrite Hseen. by apply elem_of_list_to_set.
  - lia.
  - apply Forall_app. split; [done|]. apply Forall_fmap.
    eapply Forall_impl; [exact Hall|]. by intros x [? _].
Qed.

Lemma in_step_run calls : ∀ w, in_step w → in_step (run_queries calls w).2.
Proof.
  induction calls as [|[results query] more IH]; intros w Hw; [done|].
  cbn [SerpUtils.run_queries].
  pose proof (in_step_call results query w Hw) as Hw1.
  destruct (record_query_results results query w) as [n w1]. cbn [snd] in Hw1.
  specialize (IH w1 Hw1). by destruct (run_queries more w1) as [ns w2].
Qed.

(** X3. After any sequence of calls on a fresh recorder with an empty
    source log, [total_recorded], the length of [all_results], the number
    of seen URLs and the number of records in the source log are the same
    number, the seen set is the set of the URLs of [all_results], and no
    entry of [all_results] has an empty URL. *)
Theorem counters_agree (K : Z) (cap : option Z) (calls : list (list item * string)) :
  total_recorded (run_queries calls (init K cap, [])).2.1 =
    Z.of_nat (length (all_results (run_queries calls (init K cap, [])).2.1)) ∧
  size (_seen_urls (run_queries calls (init K cap, [])).2.1) =
    length (all_results (run_queries calls (init K cap, [])).2.1) ∧
  length (run_queries calls (init K cap, [])).2.2 =
    length (all_results (run_queries calls (init K cap, [])).2.1) ∧
  _seen_urls (run_queries calls (init K cap, [])).2.1 =
    list_to_set (r_url <$> all_results (run_queries calls (init K cap, [])).2.1) ∧
  Forall (λ r, r_url r ≠ "") (all_results (run_queries calls (init K cap, [])).2.1).
Proof.
  destruct (in_step_run calls (init K cap, [])) as (Htot & Hseen & Hnd & Hlog & Hne).
  { unfold in_step. cbn. repeat split; try constructor. }
  unfold total_recorded, all_results. split; [done|]. split; [|by repeat split].
  rewrite Hseen, size_list_to_set by done. by rewrite length_fmap.
Qed.

End Recorder.

Lemma record_query_results_again_witness :
  (length (fresh strip_ascii (_seen_urls (init 6%Z (Some 20%Z)))
             [hit "u1"; hit " u2 "; hit "u1"]) ≤ room (init 6%Z (Some 20%Z)) 0%Z)%nat ∧
  record_query_results strip_ascii [hit "u1"; hit " u2 "; hit "u1"] "B"
    (record_query_results strip_ascii [hit "u1"; hit " u2 "; hit "u1"] "A"
       (init 6 (Some 20), [])).2 =
  (0, (record_query_results strip_ascii [hit "u1"; hit " u2 "; hit "u1"] "A"
         (init 6 (Some 20), [])).2).
Proof.
  assert (Hroom : (length (fresh strip_ascii (_seen_urls (init 6%Z (Some 20%Z)))
                     [hit "u1"; hit " u2 "; hit "u1"]) ≤ room (init 6%Z (Some 20%Z)) 0%Z)%nat)
    by (vm_compute; lia).
  split; [exact Hroom|].
  exact (record_query_results_again strip_ascii [hit "u1"; hit " u2 "; hit "u1"]
           "A" "B" (init 6 (Some 20)) [] Hroom).
Defined.

(** *** [context_block] *)

Lemma slice_to_length {A} (stop : Z) (l : list A) :
  length (slice_to stop l) =
    if 0 <=? stop then (Z.to_nat stop `min` length l)%nat
    else (length l - Z.to_nat (- stop))%nat.
Proof.
  unfold slice_to. destruct (0 <=? stop); rewrite length_take; lia.
Qed.

Lemma context_entry_head i r : ∃ rest, context_entry i r = String "[" rest.
Proof. unfold context_entry. cbn. by eexists. Qed.

Lemma join_head sep x parts rest :
  x = String "[" rest → ∃ rest', join sep (x :: parts) = String "[" rest'.
Proof. intros ->. destruct parts; cbn; by eexists. Qed.

(** X4. [context_block(max_items)] renders the first [max_items] entries
    of the aggregate, or, for a negative [max_items], all but the last
    [-max_items]; it is the text [(no sources)] exactly when that slice is
    empty. *)
Theorem context_block_entries (self : SerpRecorder) (max_items : Z) :
  length (context_lines self max_items) =
    (if 0 <=? max_items
     then (Z.to_nat max_items `min` length (all_results self))%nat
     else (length (all_results self) - Z.to_nat (- max_items))%nat) ∧
  (context_block self max_items = "(no sources)" ↔
   length (context_lines self max_items) = 0%nat) ∧
  (∀ i line, context_lines self max_items !! i = Some line →
     ∃ r, all_results self !! i = Some r ∧ line = context_entry i r).
Proof.
  split; [|split].
  - unfold context_lines. rewrite length_imap. apply slice_to_length.
  - unfold context_block, context_lines.
    destruct (slice_to max_items (_agg_results self)) as [|r rs]; [done|].
    cbn [imap length]. split; [|done].
    destruct (context_entry_head 0 r) as [rest Hrest].
    destruct (join_head newline _ (imap (context_entry ∘ S) rs) rest Hrest)
      as [rest' Hjoin].
    rewrite Hjoin. discriminate.
  - intros i line Hline. unfold context_lines in Hline.
    rewrite list_lookup_imap in Hline.
    destruct (slice_to max_items (_agg_results self) !! i) as [r|] eqn:Hr; [|done].
    exists r. split; [|by injection Hline].
    unfold slice_to in Hr. destruct (0 <=? max_items);
      by apply lookup_take_Some in Hr as [? _].
Qed.

End SerpUtilsMore.

(** ** More on io_clients.py *)

Module IoClientsMore.
Import IoClients.

(** *** Strings *)

Lemma string_length_app (s t : string) :
  String.length (s +:+ t) = (String.length s + String.length t)%nat.
Proof. induction s as [|c s IH]; simpl; [done|]. by rewrite IH. Qed.

Lemma string_app_inv_tail (s1 s2 t : string) : s1 +:+ t = s2 +:+ t → s1 = s2.
Proof.
  revert s2. induction s1 as [|c s1 IH]; intros [|d s2] Heq; simpl in Heq.
  - done.
  - apply (f_equal String.length) in Heq.
    rewrite ?string_length_app in Heq. simpl in Heq.
    rewrite ?string_length_app in Heq. lia.
  - apply (f_equal String.length) in Heq.
    rewrite ?string_length_app in Heq. simpl in Heq.
    rewrite ?string_length_app in Heq. lia.
  - injection Heq as -> Heq. f_equal. by apply IH.
Qed.

Lemma string_length_substring_le n s : (String.length (substring 0 n s) ≤ n)%nat.
Proof.
  revert s. induction n as [|n IH]; intros [|c s]; simpl; try lia.
  specialize (IH s). lia.
Qed.

Section Library.

Variable json_dumps : bool -> option nat -> json -> string.
Variable json_loads : string -> option json.
Variable sha256_hexdigest : string -> string.
Variable upper : string -> string.
Variable CACHE_DIR : string.
Variable ART_DIR : string.
Variable RUN_ID : string.
Variable http http2 : request -> nat -> reply.
Variable uniform uniform2 : nat -> Q.

Local Abbreviation _cache_key :=
  (IoClients._cache_key json_dumps sha256_hexdigest CACHE_DIR).
Local Abbreviation payload_of := (IoClients.payload_of upper).
Local Abbreviation try_once := (IoClients.try_once json_dumps json_loads http).
Local Abbreviation attempt_loop :=
  (IoClients.attempt_loop json_dumps json_loads http uniform).
Local Abbreviation fetch :=
  (IoClients.fetch json_dumps json_loads sha256_hexdigest upper CACHE_DIR http uniform).
Local Abbreviation fetch2 :=
  (IoClients.fetch json_dumps json_loads sha256_hexdigest upper CACHE_DIR http2 uniform2).
Local Abbreviation record_source :=
  (IoClients.record_source json_dumps json_loads ART_DIR RUN_ID).
Local Abbreviation record_sources :=
  (IoClients.record_sources json_dumps json_loads ART_DIR RUN_ID).
Local Abbreviation save_llm_call := (IoClients.save_llm_call json_dumps ART_DIR RUN_ID).

Section Fetch.

Variable provider url method : string.
Variable params json_body headers headers2 : option dict.
Variable timeout_s timeout2 : Q.

Local Abbreviation req := (mk_request method url params json_body headers timeout_s).
Local Abbreviation key := (_cache_key provider (payload_of url method params json_body)).
Local Abbreviation try_once' :=
  (try_once provider url method params json_body headers timeout_s).
Local Abbreviation attempt_loop' :=
  (attempt_loop provider url method params json_body headers).
Local Abbreviation fetch' := (fetch provider url method params json_body headers).
Local Abbreviation fetch2' := (fetch2 provider url method params json_body headers2).
Local Abbreviation wrapped r body :=
  (JObj [("meta", JObj [("status", JNum (status_code r)); ("ms", JNum (elapsed_ms r))]);
         ("body", body)]).

(** An attempt returns only what a response with a status in 200..299
    outside the retryable set carries. *)
Lemma try_once_returned k w data :
  (try_once' k w).1 = Returned data →
  ∃ r body,
    http req (requests w) = Response r ∧
    is_success (status_code r) = true ∧
    (status_code r ∉ retryable_statuses) ∧
    (if contains "application/json" (default "" (content_type r))
     then json_loads (text r) else Some (JStr (text r))) = Some body ∧
    data = wrapped r body.
Proof.
  unfold IoClients.try_once.
  destruct (http req (requests w)) as [e|r]; [done|].
  destruct (bool_decide (status_code r ∈ retryable_statuses)) eqn:Hst; [done|].
  destruct (is_success (status_code r)) eqn:Hok; [|done]. cbn [negb].
  destruct (if contains _ _ then _ else _) as [body|] eqn:Hbody; [|done].
  cbn [fst]. intros [= <-]. exists r, body.
  apply bool_decide_eq_false in Hst. by repeat split.
Qed.

(** What the loop does, whatever the server answers: with [n] attempts
    to go it sends [k] requests for some [k] from 1 to [n], sleeps between
    them, and either returns what the last response carried, written to the
    cache, or has used all [n] attempts and raises. *)
Lemma attempt_loop_shape max_retries k n : ∀ first j w,
  first + Z.of_nat n = max_retries →
  ∃ m : nat,
    (m ≤ n)%nat ∧
    requests (attempt_loop' max_retries timeout_s k
                (py_range first (max_retries + 1)) (backoff j) w).2 =
      (requests w + S m)%nat ∧
    slept (attempt_loop' max_retries timeout_s k
             (py_range first (max_retries + 1)) (backoff j) w).2 =
      slept w ++ sleeps_from uniform j (length (slept w)) m ∧
    ((∃ r body,
        (attempt_loop' max_retries timeout_s k
           (py_range first (max_retries + 1)) (backoff j) w).1 =
          Returned (Some (wrapped r body)) ∧
        http req (requests w + m) = Response r ∧
        is_success (status_code r) = true ∧
        (status_code r ∉ retryable_statuses) ∧
        (if contains "application/json" (default "" (content_type r))
         then json_loads (text r) else Some (JStr (text r))) = Some body ∧
        files (attempt_loop' max_retries timeout_s k
                 (py_range first (max_retries + 1)) (backoff j) w).2 =
          <[k := json_dumps false (Some 2%nat) (wrapped r body)]> (files w)) ∨
     (m = n ∧
      ∃ e, (attempt_loop' max_retries timeout_s k
              (py_range first (max_retries + 1)) (backoff j) w).1 = Raised e ∧
           files (attempt_loop' max_retries timeout_s k
                    (py_range first (max_retries + 1)) (backoff j) w).2 = files w)).
Proof.
  induction n as [|n IH]; intros first j w Hfirst;
    rewrite (IoClientsFacts.py_range_cons first) by lia;
    destruct (IoClientsFacts.try_once_effects json_dumps json_loads http
                provider url method params json_body headers timeout_s k w)
      as (Hreq & Hslept & Hfiles);
    destruct (try_once' k w).1 as [data|e] eqn:Hres.
  - exists 0%nat.
    erewrite IoClientsFacts.attempt_loop_return by exact Hres.
    cbn [fst snd]. rewrite Hreq, Hslept, Hfiles.
    destruct (try_once_returned k w data Hres) as (r & body & Hrep & Hok & Hst & Hb & ->).
    split; [lia|]. split; [lia|]. split; [by rewrite app_nil_r|].
    left. exists r, body. rewrite Nat.add_0_r. by repeat split.
  - exists 0%nat. replace first with max_retries by lia.
    erewrite IoClientsFacts.attempt_loop_last by exact Hres.
    cbn [fst snd log_to requests slept files]. rewrite Hreq, Hslept, Hfiles.
    split; [lia|]. split; [lia|]. split; [by rewrite app_nil_r|].
    right. split; [done|]. by exists e.
  - exists 0%nat.
    erewrite IoClientsFacts.attempt_loop_return by exact Hres.
    cbn [fst snd]. rewrite Hreq, Hslept, Hfiles.
    destruct (try_once_returned k w data Hres) as (r & body & Hrep & Hok & Hst & Hb & ->).
    split; [lia|]. split; [lia|]. split; [by rewrite app_nil_r|].
    left. exists r, body. rewrite Nat.add_0_r. by repeat split.
  - erewrite IoClientsFacts.attempt_loop_retry; [|exact Hres|lia].
    rewrite (IoClientsFacts.backoff_double j).
    match goal with
    | |- context [attempt_loop' _ _ _ _ _ ?w'] =>
        destruct (IH (first + 1) (S j) w') as (m & Hm & Hq & Hs & Hcase); [lia|];
        set (w1 := w') in *
    end.
    assert (Hw1 : requests w1 = S (requests w) ∧
                  slept w1 = slept w ++ [(backoff j + uniform (length (slept w)))%Q] ∧
                  files w1 = files w).
    { subst w1. cbn [sleep log_to requests slept files]. by rewrite Hreq, Hslept, Hfiles. }
    destruct Hw1 as (Hq1 & Hs1 & Hf1).
    exists (S m). split; [lia|]. rewrite Hq, Hs, Hq1, Hs1. split; [lia|]. split.
    { rewrite (IoClientsFacts.sleeps_from_cons uniform j), <- app_assoc, length_app.
      cbn [app length]. by rewrite Nat.add_1_r. }
    destruct Hcase as [(r & body & Hret & Hrep & Hok & Hst & Hb & Hwr)|(-> & e' & Hraise & Hsame)].
    + left. exists r, body. rewrite Hret, Hwr, Hf1.
      replace (requests w + S m)%nat with (requests w1 + m)%nat by lia.
      by repeat split.
    + right. split; [done|]. exists e'. by rewrite Hraise, Hsame, Hf1.
Qed.

(** X5. A call that goes to the network with [max_retries = N ≥ 1]
    sends at least 1 and at most [N] requests and sleeps exactly once
    between two requests, with the doubling delays; it returns data
    (never [None]) or it raises, and it raises only after all [N]
    requests. *)
Theorem fetch_live_bounds
    (N : Z) (use_cache : bool) (w : world)
    (HN : 1 ≤ N)
    (Hmiss : use_cache = false ∨ files w !! key = None) :
  ∃ n : nat,
    (1 ≤ n ≤ Z.to_nat N)%nat ∧
    requests (fetch' N timeout_s use_cache false w).2 = (requests w + n)%nat ∧
    slept (fetch' N timeout_s use_cache false w).2 =
      slept w ++ sleeps_from uniform 0 (length (slept w)) (n - 1) ∧
    ((∃ data, (fetch' N timeout_s use_cache false w).1 = Returned (Some data)) ∨
     (n = Z.to_nat N ∧ ∃ e, (fetch' N timeout_s use_cache false w).1 = Raised e)).
Proof.
  rewrite IoClientsFacts.fetch_live by done.
  destruct (attempt_loop_shape N key (Z.to_nat (N - 1)) 1 0%nat w)
    as (m & Hm & Hq & Hs & Hcase); [lia|].
  exists (S m). split; [lia|]. split; [done|]. split.
  { by rewrite Hs, Nat.sub_1_r. }
  destruct Hcase as [(r & body & Hret & _)|(-> & e & Hraise & _)].
  - left. by eexists.
  - right. split; [lia|]. by exists e.
Qed.

(** X6. What a call that went to the network returns is what the last
    response it received carried: that response had a status in 200..299
    outside the retryable set, the result is its status, its elapsed time
    and its body (parsed when the content type names JSON, the text
    otherwise), and the cache file of the request holds the dumped result,
    replacing any earlier entry. *)
Theorem fetch_live_result
    (N : Z) (use_cache : bool) (w : world) (data : json)
    (Hmiss : use_cache = false ∨ files w !! key = None)
    (Hret : (fetch' N timeout_s use_cache false w).1 = Returned (Some data)) :
  ∃ r body,
    http req (requests (fetch' N timeout_s use_cache false w).2 - 1) = Response r ∧
    (requests w < requests (fetch' N timeout_s use_cache false w).2)%nat ∧
    200 ≤ status_code r ≤ 299 ∧
    (status_code r ∉ retryable_statuses) ∧
    (if contains "application/json" (default "" (content_type r))
     then json_loads (text r) else Some (JStr (text r))) = Some body ∧
    data = JObj [("meta", JObj [("status", JNum (status_code r));
                                ("ms", JNum (elapsed_ms r))]);
                 ("body", body)] ∧
    files (fetch' N timeout_s use_cache false w).2 =
      <[key := json_dumps false (Some 2%nat) data]> (files w).
Proof.
  rewrite IoClientsFacts.fetch_live in Hret |- * by done.
  destruct (Z.le_gt_cases N 0) as [Hle|Hpos].
  { rewrite IoClientsFacts.py_range_nil in Hret by lia. done. }
  destruct (attempt_loop_shape N key (Z.to_nat (N - 1)) 1 0%nat w)
    as (m & Hm & Hq & Hs & Hcase); [lia|].
  destruct Hcase as [(r & body & Hret' & Hrep & Hok & Hst & Hb & Hwr)|(_ & e & Hraise & _)];
    [|congruence].
  rewrite Hret' in Hret. injection Hret as <-.
  exists r, body. rewrite Hq, Hwr.
  replace (requests w + S m - 1)%nat with (requests w + m)%nat by lia.
  split; [done|]. split; [lia|].
  unfold is_success in Hok. apply andb_true_iff in Hok as [?%Z.leb_le ?%Z.leb_le].
  split; [lia|]. by repeat split.
Qed.

(** X7. With [max_retries] below 1 a call that goes to the network does
    nothing at all: it sends no request, writes nothing, raises nothing
    and returns [None] instead of data. *)
Theorem fetch_without_attempts
    (N : Z) (use_cache : bool) (w : world)
    (HN : N ≤ 0)
    (Hmiss : use_cache = false ∨ files w !! key = None) :
  fetch' N timeout_s use_cache false w = (Returned None, w).
Proof.
  rewrite IoClientsFacts.fetch_live by done.
  by rewrite IoClientsFacts.py_range_nil by lia.
Qed.

(** X8. Fetch, then fetch again. After a call that went to the network
    returned data which [json.loads] reads back from its dump, a later
    call for the same provider, URL, method, params and body that may read
    the cache ([use_cache] or [cache_only]) returns the same data whatever
    its headers, time-out and [max_retries] and whatever the server would
    answer now: it sends no request, does not sleep and writes no file. *)
Theorem fetch_then_fetch_again
    (N N2 : Z) (use_cache use_cache2 cache_only2 : bool) (w : world) (data : json)
    (Hmiss : use_cache = false ∨ files w !! key = None)
    (Hret : (fetch' N timeout_s use_cache false w).1 = Returned (Some data))
    (Hround : json_loads (json_dumps false (Some 2%nat) data) = Some data)
    (Hmode : use_cache2 = true ∨ cache_only2 = true) :
  (fetch2' N2 timeout2 use_cache2 cache_only2
     (fetch' N timeout_s use_cache false w).2).1 = Returned (Some data) ∧
  requests (fetch2' N2 timeout2 use_cache2 cache_only2
              (fetch' N timeout_s use_cache false w).2).2 =
    requests (fetch' N timeout_s use_cache false w).2 ∧
  slept (fetch2' N2 timeout2 use_cache2 cache_only2
           (fetch' N timeout_s use_cache false w).2).2 =
    slept (fetch' N timeout_s use_cache false w).2 ∧
  files (fetch2' N2 timeout2 use_cache2 cache_only2
           (fetch' N timeout_s use_cache false w).2).2 =
    files (fetch' N timeout_s use_cache false w).2.
Proof.
  assert (Hentry : files (fetch' N timeout_s use_cache false w).2 !! key =
                   Some (json_dumps false (Some 2%nat) data)).
  { rewrite IoClientsFacts.fetch_live in Hret |- * by done.
    destruct (Z.le_gt_cases N 0) as [Hle|Hpos].
    { rewrite IoClientsFacts.py_range_nil in Hret by lia. done. }
    destruct (attempt_loop_shape N key (Z.to_nat (N - 1)) 1 0%nat w)
      as (m & _ & _ & _ & Hcase); [lia|].
    destruct Hcase as [(r & body & Hret' & _ & _ & _ & _ & Hwr)|(_ & e & Hraise & _)];
      [|congruence].
    rewrite Hret' in Hret. injection Hret as <-.
    rewrite Hwr. apply lookup_insert_eq. }
  set (w1 := (fetch' N timeout_s use_cache false w).2) in *. clearbody w1.
  unfold IoClients.fetch, exists_, IoClients.load_cached. rewrite Hentry.
  destruct cache_only2.
  - by rewrite Hround.
  - destruct Hmode as [->|?]; [|done]. cbn [andb]. by rewrite Hround.
Qed.

Lemma try_once_ignores_files k w1 w2 :
  same_but_files w1 w2 →
  (try_once' k w1).1 = (try_once' k w2).1 ∧
  same_but_files (try_once' k w1).2 (try_once' k w2).2.
Proof.
  intros (Hq & Hs & Hl). unfold IoClients.try_once. rewrite Hq.
  destruct (http req (requests w2)) as [e|r].
  { split; [done|]. unfold same_but_files. cbn. by rewrite Hq, Hs, Hl. }
  destruct (bool_decide _).
  { split; [done|]. unfold same_but_files. cbn. by rewrite Hq, Hs, Hl. }
  destruct (negb _).
  { split; [done|]. unfold same_but_files. cbn. by rewrite Hq, Hs, Hl. }
  destruct (if contains _ _ then _ else _);
    (split; [done|]; unfold same_but_files; cbn; by rewrite Hq, Hs, Hl).
Qed.

Lemma attempt_loop_ignores_files N k attempts : ∀ delay w1 w2,
  same_but_files w1 w2 →
  (attempt_loop' N timeout_s k attempts delay w1).1 =
    (attempt_loop' N timeout_s k attempts delay w2).1 ∧
  same_but_files (attempt_loop' N timeout_s k attempts delay w1).2
                 (attempt_loop' N timeout_s k attempts delay w2).2.
Proof.
  induction attempts as [|a rest IH]; intros delay w1 w2 Hsame; [done|].
  cbn [IoClients.attempt_loop].
  destruct (try_once_ignores_files k w1 w2 Hsame) as [Hres Hsame'].
  destruct (try_once' k w1) as [[d1|e1] w1'], (try_once' k w2) as [[d2|e2] w2'];
    cbn [fst snd] in *; try done.
  - by injection Hres as ->.
  - injection Hres as ->. destruct Hsame' as (Hq & Hs & Hl).
    destruct (a =? N).
    + split; [done|]. unfold same_but_files. cbn. by rewrite Hq, Hs, Hl.
    + cbn [log_to slept]. rewrite Hs. apply IH.
      unfold same_but_files. cbn. by rewrite Hq, Hs, Hl.
Qed.

(** X9. With [use_cache=false] (and without [cache_only]) the call never
    reads the cache: which files exist and what they hold changes neither
    the outcome nor the requests sent, the sleeps or the lines logged. *)
Theorem fetch_without_cache_ignores_files
    (N : Z) (w : world) (other_files : gmap string string) :
  (fetch' N timeout_s false false
     (mk_world other_files (requests w) (slept w) (logged w))).1 =
    (fetch' N timeout_s false false w).1 ∧
  requests (fetch' N timeout_s false false
              (mk_world other_files (requests w) (slept w) (logged w))).2 =
    requests (fetch' N timeout_s false false w).2 ∧
  slept (fetch' N timeout_s false false
           (mk_world other_files (requests w) (slept w) (logged w))).2 =
    slept (fetch' N timeout_s false false w).2 ∧
  logged (fetch' N timeout_s false false
            (mk_world other_files (requests w) (slept w) (logged w))).2 =
    logged (fetch' N timeout_s false false w).2.
Proof.
  rewrite !IoClientsFacts.fetch_live by (by left).
  destruct (attempt_loop_ignores_files N key (py_range 1 (N + 1)) (backoff 0)
              (mk_world other_files (requests w) (slept w) (logged w)) w)
    as (Hres & Hq & Hs & Hl); [done|]. done.
Qed.

End Fetch.

(** *** The provenance helper, call after call *)

Local Abbreviation source_path store_as :=
  (path_join ART_DIR (RUN_ID +:+ "." +:+ store_as)).

Lemma record_source_frame now claim url snippet store_as w :
  requests (record_source now claim url snippet store_as w).2 = requests w ∧
  slept (record_source now claim url snippet store_as w).2 = slept w ∧
  ∀ p, p ≠ source_path store_as →
       files (record_source now claim url snippet store_as w).2 !! p = files w !! p.
Proof.
  unfold IoClients.record_source.
  destruct (if exists_ _ w then _ else _); try done.
  cbn. split; [done|]. split; [done|]. intros p Hp. by rewrite lookup_insert_ne.
Qed.

Lemma record_sources_from done_ more : ∀ store_as w,
  more ≠ [] →
  (match done_ with
   | [] => files w !! source_path store_as = None ∨
           ∃ content, files w !! source_path store_as = Some content ∧
                      json_loads content = None
   | _ => files w !! source_path store_as =
            Some (json_dumps false (Some 2%nat) (JArr (entry_of <$> done_))) ∧
          json_loads (json_dumps false (Some 2%nat) (JArr (entry_of <$> done_))) =
            Some (JArr (entry_of <$> done_))
   end) →
  (∀ k, (0 < k < length more)%nat →
        json_loads (json_dumps false (Some 2%nat)
                      (JArr (entry_of <$> (done_ ++ take k more)))) =
          Some (JArr (entry_of <$> (done_ ++ take k more)))) →
  (record_sources more store_as w).1 = Returned () ∧
  files (record_sources more store_as w).2 !! source_path store_as =
    Some (json_dumps false (Some 2%nat) (JArr (entry_of <$> (done_ ++ more)))) ∧
  requests (record_sources more store_as w).2 = requests w ∧
  slept (record_sources more store_as w).2 = slept w ∧
  ∀ p, p ≠ source_path store_as →
       files (record_sources more store_as w).2 !! p = files w !! p.
Proof.
  revert done_. induction more as [|[[[now claim] url] snippet] more IH];
    intros done_ store_as w Hne Hstate Hround; [congruence|].
  cbn [IoClients.record_sources].
  destruct (record_source_frame now claim url snippet store_as w) as (Hq & Hs & Hf).
  assert (Hstep : (record_source now claim url snippet store_as w).1 = Returned () ∧
            files (record_source now claim url snippet store_as w).2
              !! source_path store_as =
            Some (json_dumps false (Some 2%nat)
                    (JArr (entry_of <$> (done_ ++ [(now, claim, url, snippet)]))))).
  { destruct done_ as [|d ds].
    - destruct (IoClientsFacts.record_source_appends json_dumps json_loads ART_DIR RUN_ID
                  now claim url snippet store_as w Hstate) as [Hr Hw].
      split; [done|]. rewrite Hw. apply lookup_insert_eq.
    - destruct Hstate as [Hfile Hparse].
      destruct (IoClientsFacts.record_source_appends_to_array json_dumps json_loads
                  ART_DIR RUN_ID now claim url snippet store_as w _ _ Hfile Hparse)
        as [Hr Hw].
      split; [done|]. rewrite Hw, lookup_insert_eq, fmap_app. reflexivity. }
  destruct Hstep as [Hr Hw].
  destruct (record_source now claim url snippet store_as w) as [[[]|e] w1];
    cbn [fst snd] in *; [|done].
  destruct more as [|e' more'].
  { cbn [IoClients.record_sources fst snd]. by repeat split. }
  destruct (IH (done_ ++ [(now, claim, url, snippet)]) store_as w1)
    as (Hr' & Hw' & Hq' & Hs' & Hf'); [done| |  |].
  - destruct (done_ ++ [(now, claim, url, snippet)]) eqn:Hd;
      [by destruct done_|]. rewrite <- Hd in Hw |- *. split; [done|].
    specialize (Hround 1%nat). cbn [length take] in Hround. apply Hround. lia.
  - intros k Hk. rewrite <- app_assoc. cbn [app].
    specialize (Hround (S k)). cbn [length take] in Hround. apply Hround.
    cbn [length] in Hk. lia.
  - rewrite Hr', Hw', Hq', Hs', <- app_assoc. cbn [app].
    split; [done|]. split; [done|]. split; [done|]. split; [done|].
    intros p Hp. by rewrite Hf', Hf.
Qed.

(** X10. Starting from a log that is absent or not JSON, one or more
    calls of [record_source] in a row, each reading back what the one
    before wrote, all return, and leave in the log the array of the
    entries in call order; no other file changes and no request is
    sent. *)
Theorem record_sources_builds_the_log
    (entries : list (string * string * string * string)) (store_as : string) (w : world)
    (Hsome : entries ≠ [])
    (Hstart : files w !! source_path store_as = None ∨
              ∃ content, files w !! source_path store_as = Some content ∧
                         json_loads content = None)
    (Hround : ∀ k, (0 < k < length entries)%nat →
                   json_loads (json_dumps false (Some 2%nat)
                                 (JArr (entry_of <$> take k entries))) =
                     Some (JArr (entry_of <$> take k entries))) :
  (record_sources entries store_as w).1 = Returned () ∧
  files (record_sources entries store_as w).2 !! source_path store_as =
    Some (json_dumps false (Some 2%nat) (JArr (entry_of <$> entries))) ∧
  requests (record_sources entries store_as w).2 = requests w ∧
  slept (record_sources entries store_as w).2 = slept w ∧
  ∀ p, p ≠ source_path store_as →
       files (record_sources entries store_as w).2 !! p = files w !! p.
Proof. exact (record_sources_from [] entries store_as w Hsome Hstart Hround). Qed.

(** *** LLM snapshots *)

Lemma llm_path_inj (role : string) (secs1 secs2 : Z) :
  path_join ART_DIR (RUN_ID +:+ "." +:+ role +:+ "." +:+ pretty secs1 +:+ ".llm.json") =
  path_join ART_DIR (RUN_ID +:+ "." +:+ role +:+ "." +:+ pretty secs2 +:+ ".llm.json") →
  secs1 = secs2.
Proof.
  unfold path_join. intros Heq.
  do 6 apply String.app_inj in Heq.
  apply string_app_inv_tail in Heq. by apply (inj pretty).
Qed.

(** X11. Two snapshots of the same role: taken within the same second
    they have the same path and the second replaces the first, so only
    the second record is on disk; taken in different seconds they have
    different paths and both records are on disk. The path is built from
    the module's run id, not from the [run_id] argument. *)
Theorem save_llm_call_twice
    (ts1 ts2 : string) (secs1 secs2 : Z) (run_id1 run_id2 role : string)
    (provider1 provider2 model1 model2 : string) (messages1 messages2 : list json)
    (response1 response2 : json) (params1 params2 : dict) (fs : gmap string string) :
  let first := save_llm_call ts1 secs1 run_id1 role provider1 model1
                 messages1 response1 params1 fs in
  let second := save_llm_call ts2 secs2 run_id2 role provider2 model2
                  messages2 response2 params2 first.1.2 in
  let record1 := llm_record ts1 run_id1 role provider1 model1 params1 messages1 response1 in
  let record2 := llm_record ts2 run_id2 role provider2 model2 params2 messages2 response2 in
  (first.1.1 = second.1.1 ↔ secs1 = secs2) ∧
  second.1.2 !! second.1.1 = Some (json_dumps false (Some 2%nat) record2) ∧
  (secs1 = secs2 →
   second.1.2 = (save_llm_call ts2 secs2 run_id2 role provider2 model2
                   messages2 response2 params2 fs).1.2) ∧
  (secs1 ≠ secs2 →
   second.1.2 !! first.1.1 = Some (json_dumps false (Some 2%nat) record1)).
Proof.
  cbn zeta. unfold IoClients.save_llm_call. cbn [fst snd].
  split; [|split; [|split]].
  - split; [apply llm_path_inj|by intros ->].
  - apply lookup_insert_eq.
  - intros ->. apply insert_insert_eq.
  - intros Hne. rewrite lookup_insert_ne; [apply lookup_insert_eq|].
    intros Heq. by apply Hne, (llm_path_inj role).
Qed.

End Library.

(** *** Concrete runs *)

Import Demo.

Lemma fetch_live_bounds_witness :
  ∃ n : nat,
    (1 ≤ n ≤ Z.to_nat 4)%nat ∧
    requests (get (always 404) 4 true false empty_world).2 =
      (requests empty_world + n)%nat ∧
    slept (get (always 404) 4 true false empty_world).2 =
      slept empty_world ++ sleeps_from quarter 0 (length (slept empty_world)) (n - 1) ∧
    ((∃ data, (get (always 404) 4 true false empty_world).1 = Returned (Some data)) ∨
     (n = Z.to_nat 4 ∧ ∃ e, (get (always 404) 4 true false empty_world).1 = Raised e)).
Proof.
  apply (fetch_live_bounds dumps loads digest upper_ascii "cache" (always 404) quarter
           "brave" "https://api.test/q" "GET" None None None 30%Q 4 true empty_world).
  - lia.
  - right. vm_compute. reflexivity.
Defined.

Lemma fetch_live_result_witness :
  (get twice_busy 4 true false empty_world).1 = Returned (Some busy_result) ∧
  ∃ r body,
    twice_busy (mk_request "GET" "https://api.test/q" None None None 30%Q)
      (requests (get twice_busy 4 true false empty_world).2 - 1) = Response r ∧
    (requests empty_world < requests (get twice_busy 4 true false empty_world).2)%nat ∧
    200 ≤ status_code r ≤ 299 ∧
    (status_code r ∉ retryable_statuses) ∧
    (if contains "application/json" (default "" (content_type r))
     then loads (text r) else Some (JStr (text r))) = Some body ∧
    busy_result = JObj [("meta", JObj [("status", JNum (status_code r));
                                       ("ms", JNum (elapsed_ms r))]);
                        ("body", body)] ∧
    files (get twice_busy 4 true false empty_world).2 =
      <[the_key := dumps false (Some 2%nat) busy_result]> (files empty_world).
Proof.
  assert (Hret : (get twice_busy 4 true false empty_world).1 = Returned (Some busy_result))
    by (vm_compute; reflexivity).
  split; [exact Hret|].
  exact (fetch_live_result dumps loads digest upper_ascii "cache" twice_busy quarter
           "brave" "https://api.test/q" "GET" None None None 30%Q 4 true empty_world
           busy_result (or_intror eq_refl) Hret).
Defined.

Lemma fetch_without_attempts_witness :
  get (always 200) 0 true false empty_world = (Returned None, empty_world).
Proof.
  apply (fetch_without_attempts dumps loads digest upper_ascii "cache" (always 200) quarter
           "brave" "https://api.test/q" "GET" None None None 30%Q 0 true empty_world).
  - lia.
  - right. vm_compute. reflexivity.
Defined.

Lemma fetch_then_fetch_again_witness :
  (get_known twice_busy None 4 true false empty_world).1 = Returned (Some busy_result) ∧
  (get_known (always 404) (Some [("Accept", JStr "text/html")]) 0 false true
     (get_known twice_busy None 4 true false empty_world).2).1 =
    Returned (Some busy_result) ∧
  requests (get_known (always 404) (Some [("Accept", JStr "text/html")]) 0 false true
              (get_known twice_busy None 4 true false empty_world).2).2 =
    requests (get_known twice_busy None 4 true false empty_world).2 ∧
  slept (get_known (always 404) (Some [("Accept", JStr "text/html")]) 0 false true
           (get_known twice_busy None 4 true false empty_world).2).2 =
    slept (get_known twice_busy None 4 true false empty_world).2 ∧
  files (get_known (always 404) (Some [("Accept", JStr "text/html")]) 0 false true
           (get_known twice_busy None 4 true false empty_world).2).2 =
    files (get_known twice_busy None 4 true false empty_world).2.
Proof.
  assert (Hret : (get_known twice_busy None 4 true false empty_world).1 =
                 Returned (Some busy_result)) by (vm_compute; reflexivity).
  split; [exact Hret|].
  apply (fetch_then_fetch_again dumps (loads_known [busy_result]) digest upper_ascii
           "cache" twice_busy (always 404) quarter quarter
           "brave" "https://api.test/q" "GET" None None None
           (Some [("Accept", JStr "text/html")]) 30%Q 30%Q 4 0 true false true
           empty_world busy_result (or_intror eq_refl) Hret).
  - vm_compute. reflexivity.
  - by right.
Defined.

Lemma record_sources_builds_the_log_witness :
  (record_evidence empty_world).1 = Returned () ∧
  files (record_evidence empty_world).2 !! the_log =
    Some (dumps false (Some 2%nat) (JArr (entry_of <$> evidence))) ∧
  requests (record_evidence empty_world).2 = requests empty_world ∧
  slept (record_evidence empty_world).2 = slept empty_world ∧
  ∀ p, p ≠ the_log → files (record_evidence empty_world).2 !! p = files empty_world !! p.
Proof.
  apply (record_sources_builds_the_log dumps
           (loads_known [JArr (entry_of <$> take 1 evidence)])
           "runs" "ae30a38d" evidence "sources.json" empty_world).
  - discriminate.
  - left. vm_compute. reflexivity.
  - intros k Hk. assert (k = 1%nat) as -> by (cbn in Hk; lia).
    vm_compute. reflexivity.
Defined.

End IoClientsMore.

(** ** Properties of run_files.py and run_logging.py *)

Module RunFilesFacts.
Import IoClients RunFilesPy RunLogging.

Lemma artifact_inj (dir rid s1 s2 : string) :
  path_join dir (rid +:+ s1) = path_join dir (rid +:+ s2) → s1 = s2.
Proof. unfold path_join. intros Heq. by do 3 apply String.app_inj in Heq. Qed.

(** X12. For one run, the nine artifact paths of [RunFiles] and the
    default source log of [record_source] are ten different paths,
    whatever the time stamps of the two LLM snapshot names; and two LLM
    snapshot names of one kind coincide only for equal time stamps. *)
Theorem run_files_paths_distinct
    (self : RunFiles) (secs : Z) (t1 t2 : option Z) :
  NoDup [manifest self; sources_final self; sources_raw self;
         macro_analyst_llm secs self t1; macro_notes self; factcheck self;
         executive_writer_llm secs self t2; brief self; debug self;
         path_join (art_dir self) (run_id self +:+ "." +:+ "sources.json")] ∧
  (∀ ta tb, macro_analyst_llm secs self (Some ta) = macro_analyst_llm secs self (Some tb) →
            ta = tb) ∧
  (∀ ta tb, executive_writer_llm secs self (Some ta) =
              executive_writer_llm secs self (Some tb) → ta = tb).
Proof.
  split; [|split].
  - unfold manifest, sources_final, sources_raw, macro_analyst_llm, macro_notes,
      factcheck, executive_writer_llm, brief, debug.
    set (ta := match t1 with None => secs | Some t => t end).
    set (tb := match t2 with None => secs | Some t => t end).
    change (NoDup ((λ s, path_join (art_dir self) (run_id self +:+ s)) <$>
              [".manifest.json"; ".sources.final.jsonl"; ".sources.raw.json";
               ".MacroAnalyst." +:+ pretty ta +:+ ".llm.json"; ".macro.notes.md";
               ".factcheck.json"; ".ExecutiveWriter." +:+ pretty tb +:+ ".llm.json";
               ".brief.md"; ".debug.json"; "." +:+ "sources.json"])).
    apply NoDup_fmap_2; [intros s1 s2; apply artifact_inj|].
    repeat (apply NoDup_cons; split;
            [rewrite ?not_elem_of_cons; repeat split;
             try (cbn; discriminate); apply not_elem_of_nil|]).
    apply NoDup_nil_2.
  - intros ta tb Heq. unfold macro_analyst_llm in Heq.
    apply artifact_inj, String.app_inj, IoClientsMore.string_app_inv_tail in Heq.
    by apply (inj pretty).
  - intros ta tb Heq. unfold executive_writer_llm in Heq.
    apply artifact_inj, String.app_inj, IoClientsMore.string_app_inv_tail in Heq.
    by apply (inj pretty).
Qed.

Lemma substring_0_not_empty n s : s ≠ "" → substring 0 (S n) s ≠ "".
Proof. by destruct s. Qed.

(** X13. [get_today] prefers a non-empty [FEDRATE_TODAY] to a non-empty
    default and a non-empty default to the clock, treating an empty string
    like an absent value; it reads the clock only when both are empty or
    absent, and its result is never empty as long as the clock string is
    not. *)
Theorem get_today_precedence
    (env default_iso : option string) (now : string) :
  (∀ e, env = Some e → e ≠ "" → get_today env now default_iso = e) ∧
  (∀ d, env = None ∨ env = Some "" → default_iso = Some d → d ≠ "" →
        get_today env now default_iso = d) ∧
  (env = None ∨ env = Some "" → default_iso = None ∨ default_iso = Some "" →
   get_today env now default_iso = substring 0 10 now) ∧
  (now ≠ "" → get_today env now default_iso ≠ "").
Proof.
  unfold get_today, set_and_not_empty. split; [|split; [|split]].
  - intros e -> Hne. apply String.eqb_neq in Hne. by rewrite Hne.
  - intros d Henv -> Hne. apply String.eqb_neq in Hne. rewrite Hne.
    by destruct Henv as [->| ->].
  - by intros [->| ->] [->| ->].
  - intros Hnow.
    destruct env as [e|];
      [destruct (String.eqb e "") eqn:He; cbn [negb default];
       [|by apply String.eqb_neq in He]|];
      (destruct default_iso as [d|];
       [destruct (String.eqb d "") eqn:Hd; cbn [negb default];
        [|by apply String.eqb_neq in Hd]|]);
      by apply substring_0_not_empty.
Qed.

End RunFilesFacts.

(** ** Properties of agent_tools.py *)

Module AgentToolsFacts.
Import IoClients AgentTools.

Section Tools.

Variable netloc : string -> string.
Variable requests_get : string -> reply.

Local Abbreviation fetch_url := (AgentTools.fetch_url netloc requests_get).


End Tools.

End AgentToolsFacts.

(** ** Properties of [search_with_fallback] *)

Module ManualAgentDemoFacts.
Import IoClients ManualAgentDemo.

Section Search.

Variable replace : string -> string -> string -> string.
Variable BRAVE_API_KEY : string.
Variable json_dumps : bool -> option nat -> json -> string.
Variable json_loads : string -> option json.
Variable sha256_hexdigest : string -> string.
Variable upper : string -> string.
Variable CACHE_DIR : string.
Variable http : request -> nat -> reply.
Variable uniform : nat -> Q.

Local Abbreviation fetch :=
  (IoClients.fetch json_dumps json_loads sha256_hexdigest upper CACHE_DIR http uniform).
Local Abbreviation _cache_key :=
  (IoClients._cache_key json_dumps sha256_hexdigest CACHE_DIR).
Local Abbreviation fetch_for :=
  (ManualAgentDemo.fetch_for BRAVE_API_KEY json_dumps json_loads sha256_hexdigest upper
     CACHE_DIR http uniform).
Local Abbreviation results_of := (ManualAgentDemo.results_of replace).
Local Abbreviation brave_hits := (ManualAgentDemo.brave_hits replace).
Local Abbreviation search_with_fallback :=
  (ManualAgentDemo.search_with_fallback replace BRAVE_API_KEY json_dumps json_loads
     sha256_hexdigest upper CACHE_DIR http uniform).
Local Abbreviation brave_url := "https://api.search.brave.com/res/v1/web/search".
Local Abbreviation ddg_url := "https://html.duckduckgo.com/html".

(** Any call of [fetch] sends at most [max_retries] requests and sleeps
    at most [max_retries - 1] times; with [cache_only] it sends none and
    writes nothing. *)
Lemma fetch_bounded provider url method params json_body headers N timeout_s
    use_cache cache_only w :
  (requests w ≤
     requests (fetch provider url method params json_body headers N timeout_s
                 use_cache cache_only w).2 ≤ requests w + Z.to_nat N)%nat ∧
  (length (slept w) ≤
     length (slept (fetch provider url method params json_body headers N timeout_s
                      use_cache cache_only w).2) ≤
     length (slept w) + (Z.to_nat N - 1))%nat ∧
  (cache_only = true →
   requests (fetch provider url method params json_body headers N timeout_s
               use_cache cache_only w).2 = requests w ∧
   slept (fetch provider url method params json_body headers N timeout_s
            use_cache cache_only w).2 = slept w ∧
   files (fetch provider url method params json_body headers N timeout_s
            use_cache cache_only w).2 = files w).
Proof.
  destruct cache_only.
  { unfold IoClients.fetch.
    destruct (exists_ _ w); [|cbn; split; [lia|]; split; [lia|done]].
    match goal with
    | |- context [IoClients.load_cached ?l ?p ?k ?m w] =>
        destruct (IoClientsFacts.load_cached_frame l p k m w) as (Hf & Hq & Hs)
    end.
    rewrite Hq, Hs. split; [lia|]. split; [lia|]. by rewrite Hf. }
  split; [|split; [|done]].
  - unfold IoClients.fetch.
    destruct (use_cache && exists_ _ w).
    { match goal with
      | |- context [IoClients.load_cached ?l ?p ?k ?m w] =>
          destruct (IoClientsFacts.load_cached_frame l p k m w) as (_ & Hq & _)
      end.
      rewrite Hq. lia. }
    destruct (Z.le_gt_cases N 0) as [Hle|Hpos].
    { rewrite IoClientsFacts.py_range_nil by lia. cbn. lia. }
    match goal with
    | |- context [IoClients.attempt_loop _ _ _ _ _ _ _ _ _ _ _ _ ?k _ _ w] =>
        destruct (IoClientsMore.attempt_loop_shape json_dumps json_loads http uniform
                    provider url method params json_body headers timeout_s
                    N k (Z.to_nat (N - 1)) 1 0%nat w)
          as (m & Hm & Hq & _); [lia|]
    end.
    change (backoff 0) with 1%Q in Hq. rewrite Hq. lia.
  - unfold IoClients.fetch.
    destruct (use_cache && exists_ _ w).
    { match goal with
      | |- context [IoClients.load_cached ?l ?p ?k ?m w] =>
          destruct (IoClientsFacts.load_cached_frame l p k m w) as (_ & _ & Hs)
      end.
      rewrite Hs. lia. }
    destruct (Z.le_gt_cases N 0) as [Hle|Hpos].
    { rewrite IoClientsFacts.py_range_nil by lia. cbn. lia. }
    match goal with
    | |- context [IoClients.attempt_loop _ _ _ _ _ _ _ _ _ _ _ _ ?k _ _ w] =>
        destruct (IoClientsMore.attempt_loop_shape json_dumps json_loads http uniform
                    provider url method params json_body headers timeout_s
                    N k (Z.to_nat (N - 1)) 1 0%nat w)
          as (m & Hm & _ & Hs & _); [lia|]
    end.
    change (backoff 0) with 1%Q in Hs. rewrite Hs, length_app.
    unfold sleeps_from. rewrite length_fmap, length_seq. lia.
Qed.

Lemma brave_hits_provider items : ∀ hs,
  brave_hits items = Done hs → Forall (λ h, h_provider h = "brave") hs.
Proof.
  induction items as [|it rest IH]; intros hs Hhs; cbn in Hhs.
  - injection Hhs as <-. constructor.
  - destruct (ManualAgentDemo.brave_hit replace it) as [h|f] eqn:Hh; [|done].
    destruct (brave_hits rest) as [hs'|f]; [|done].
    injection Hhs as <-. constructor; [|by apply IH].
    unfold brave_hit in Hh.
    destruct (get it "title" JNull); [|done].
    destruct (get it "url" JNull); [|done].
    destruct (get it "description" JNull) as [d|]; [|done].
    destruct (or_empty d); try done. by injection Hh as <-.
Qed.

Lemma results_of_shape provider url query res hs :
  results_of provider url query res = Done hs →
  hs = [stub url query] ∨
  (provider = "brave" ∧ Forall (λ h, h_provider h = "brave") hs).
Proof.
  unfold ManualAgentDemo.results_of. destruct res as [res|]; [|done].
  destruct (get res "body" JNull) as [body|]; [|done].
  destruct (String.eqb provider "brave") eqn:Hp; cbn [andb].
  - destruct (is_dict body); [|intros [= <-]; by left].
    destruct (get body "web" (JObj [])) as [web|]; [|done].
    destruct (get web "results" (JArr [])) as [rs|]; [|done].
    destruct (iterate rs) as [items|]; [|done].
    intros Hhs. right. split; [by apply String.eqb_eq|].
    by eapply brave_hits_provider.
  - intros [= <-]. by left.
Qed.

(** X15. One call of [search_with_fallback] ends in one of three ways:
    brave's answer was used and ddg was not contacted (the result is a
    list of entries all labelled brave, or the one stub entry when the
    body was not a dict); or brave failed, ddg's fetch returned a dict and
    the result is the one stub entry for ddg; or both failed and the
    result is the empty list. It never raises. *)
Theorem search_with_fallback_outcomes (query : string) (cache_only : bool) (w : world) :
  let w1 := (fetch_for "brave" brave_url query cache_only w).2 in
  let w2 := (fetch_for "ddg" ddg_url query cache_only w1).2 in
  (∃ hs,
     search_with_fallback query cache_only w = (hs, w1, [search_ok "brave" query]) ∧
     (hs = [stub brave_url query] ∨ Forall (λ h, h_provider h = "brave") hs)) ∨
  (∃ f,
     search_with_fallback query cache_only w =
       ([stub ddg_url query], w2,
        [search_fail "brave" query f; search_ok "ddg" query])) ∨
  (∃ f1 f2,
     search_with_fallback query cache_only w =
       ([], w2, [search_fail "brave" query f1; search_fail "ddg" query f2])).
Proof.
  cbn zeta. unfold ManualAgentDemo.search_with_fallback, providers.
  cbn [ManualAgentDemo.search_loop].
  destruct (fetch_for "brave" brave_url query cache_only w) as [res1 w1].
  cbn [snd app].
  destruct (match res1 with
            | Returned r => results_of "brave" brave_url query r
            | Raised e => Failure (FetchFailed e)
            end) as [hs|f1] eqn:H1.
  { left. exists hs. split; [done|].
    destruct res1 as [r|e]; [|done].
    destruct (results_of_shape _ _ _ _ _ H1) as [?|[_ ?]]; auto. }
  right.
  destruct (fetch_for "ddg" ddg_url query cache_only w1) as [res2 w2].
  cbn [snd app].
  destruct (match res2 with
            | Returned r => results_of "ddg" ddg_url query r
            | Raised e => Failure (FetchFailed e)
            end) as [hs|f2] eqn:H2.
  - left. exists f1.
    destruct res2 as [r|e]; [|done].
    destruct (results_of_shape _ _ _ _ _ H2) as [->|[? _]]; done.
  - right. by exists f1, f2.
Qed.

(** X16. One call of [search_with_fallback] sends at most 8 HTTP
    requests and sleeps at most 6 times, whatever the servers answer; with
    [cache_only] it sends no request, never sleeps and writes no file. *)
Theorem search_with_fallback_bounded (query : string) (cache_only : bool) (w : world) :
  (requests w ≤ requests (search_with_fallback query cache_only w).1.2 ≤
     requests w + 8)%nat ∧
  (length (slept w) ≤ length (slept (search_with_fallback query cache_only w).1.2) ≤
     length (slept w) + 6)%nat ∧
  (cache_only = true →
   requests (search_with_fallback query cache_only w).1.2 = requests w ∧
   slept (search_with_fallback query cache_only w).1.2 = slept w ∧
   files (search_with_fallback query cache_only w).1.2 = files w).
Proof.
  unfold ManualAgentDemo.search_with_fallback, providers.
  cbn [ManualAgentDemo.search_loop].
  pose proof (fetch_bounded "brave" brave_url "GET"
                (Some (params_of "brave" query)) None
                (Some (headers_of BRAVE_API_KEY "brave")) 4 30%Q true cache_only w)
    as (Hq1 & Hs1 & Ho1).
  change (IoClients.fetch _ _ _ _ _ _ _ "brave" _ _ _ _ _ _ _ _ _ w)
    with (fetch_for "brave" brave_url query cache_only w) in Hq1, Hs1, Ho1.
  destruct (fetch_for "brave" brave_url query cache_only w) as [res1 w1].
  cbn [snd] in *.
  destruct (match res1 with
            | Returned r => results_of "brave" brave_url query r
            | Raised e => Failure (FetchFailed e)
            end) as [hs|f1].
  { cbn [fst snd]. split; [lia|]. split; [lia|done]. }
  pose proof (fetch_bounded "ddg" ddg_url "GET"
                (Some (params_of "ddg" query)) None
                (Some (headers_of BRAVE_API_KEY "ddg")) 4 30%Q true cache_only w1)
    as (Hq2 & Hs2 & Ho2).
  change (IoClients.fetch _ _ _ _ _ _ _ "ddg" _ _ _ _ _ _ _ _ _ w1)
    with (fetch_for "ddg" ddg_url query cache_only w1) in Hq2, Hs2, Ho2.
  destruct (fetch_for "ddg" ddg_url query cache_only w1) as [res2 w2].
  cbn [snd] in *.
  assert (Hgoal : (requests w ≤ requests w2 ≤ requests w + 8)%nat ∧
                  (length (slept w) ≤ length (slept w2) ≤ length (slept w) + 6)%nat ∧
                  (cache_only = true →
                   requests w2 = requests w ∧ slept w2 = slept w ∧ files w2 = files w)).
  { split; [lia|]. split; [lia|]. intros Hc.
    destruct (Ho1 Hc) as (E1 & E2 & E3). destruct (Ho2 Hc) as (F1 & F2 & F3).
    split; [congruence|]. split; congruence. }
  by destruct (match res2 with
               | Returned r => results_of "ddg" ddg_url query r
               | Raised e => Failure (FetchFailed e)
               end).
Qed.

End Search.

End ManualAgentDemoFacts.
